(** * Nightscout LibreLink Up uploader: session cache, connection
      resolution and incremental upload

    A shallow embedding of [src/index.ts].  The module keeps three mutable
    module-level variables ([authTicket], [userId], [config]) and talks to
    two remote services: the LibreLink Up API (through axios) and the
    Nightscout client.  Every function of the source is [async], but one
    cycle is a single sequential chain of awaits, so a function is
    modelled as a computation that reads the replies of the outside world
    from an environment, threads the module-level variables, may throw,
    and emits the ordered list of effects it performed (log lines and
    remote calls). *)

From Stdlib Require Import ZArith List String Bool Lia Permutation.
Import ListNotations.
Local Open Scope string_scope.
Local Open Scope list_scope.
Local Open Scope Z_scope.

(** ** Imported helpers

    [mapTrendArrow] and [getUtcDateFromString] are imported from
    [./helpers/helpers], the [Direction] enumeration from the Nightscout
    interface, and the SHA-256 digest from node's [crypto].  None of them is
    part of [index.ts]; the development is parametric in them.  A [Date] is
    represented by its time value (milliseconds since the epoch), which is
    what the comparison [>] of two dates compares. *)
Class Helpers : Type := {
  Direction : Type;
  mapTrendArrow : option Z -> Direction;
  getUtcDateFromString : string -> Z;
  sha256Hex : string -> string
}.

(** ** Data that does not depend on the helpers *)

(** [AuthTicket] of [interfaces/librelink/common]; [expires] may be
    [undefined], which [hasValidAuthentication] tests for. *)
Record AuthTicket : Type := {
  token : string;
  expires : option Z;
  duration : Z
}.

(** [GlucoseItem]: the fields [index.ts] reads. *)
Record GlucoseItem : Type := {
  FactoryTimestamp : string;
  ValueInMgPerDl : Z;
  TrendArrow : option Z
}.

(** [Connection]: the fields [index.ts] reads. *)
Record Connection : Type := {
  patientId : string;
  firstName : string;
  lastName : string;
  glucoseMeasurement : GlucoseItem
}.

(** [GraphData]: the active connection and the historical graph points. *)
Record GraphData : Type := {
  connection : Connection;
  graphData : list GlucoseItem
}.

Record User : Type := { id : string }.

(** The [data] member of a [LoginResponse]. *)
Record LoginData : Type := {
  redirect : option bool;
  region : option string;
  user : User;
  loginAuthTicket : AuthTicket
}.

Record LoginResponse : Type := {
  status : Z;
  loginData : LoginData
}.

(** The part of the configuration [index.ts] branches on. *)
Record Config : Type := {
  linkUpConnection : option string;
  allData : bool
}.

(** The two headers that vary between requests. *)
Record LibreLinkUpHttpHeaders : Type := {
  Authorization : option string;
  account_id : string
}.

Inductive LogLevel : Type := LvlError | LvlWarn | LvlInfo | LvlDebug.

(** What [await axios.get/post] evaluates to.  The response interceptor
    installed at module load returns the error object instead of rejecting,
    so a failed request resolves to a value whose [data] is [undefined]. *)
Inductive AxiosReply (A : Type) : Type :=
| Response (body : A)
| RequestError (message : string).
Arguments Response {A} body.
Arguments RequestError {A} message.

(** Normal completion or a thrown exception. *)
Inductive Outcome (A : Type) : Type :=
| Returned (value : A)
| Thrown (message : string).
Arguments Returned {A} value.
Arguments Thrown {A} message.

(** The module-level variables. *)
Record Globals : Type := {
  authTicket : AuthTicket;
  userId : string;
  config : Config
}.

(** JavaScript truthiness of a string and of [string | undefined | null]. *)
Definition truthyString (s : string) : bool := negb (String.eqb s "").

Definition truthyOptString (s : option string) : bool :=
  match s with
  | Some v => truthyString v
  | None => false
  end.

(** [a === b] where [b] may be [undefined]. *)
Definition strictEqOpt (a : string) (b : option string) : bool :=
  match b with
  | Some v => String.eqb a v
  | None => false
  end.

(** [x === true] where [x] may be [undefined]. *)
Definition strictEqTrue (x : option bool) : bool :=
  match x with
  | Some true => true
  | _ => false
  end.

(** [{ duration: 0, expires: 0, token: "" }] *)
Definition emptyAuthTicket : AuthTicket :=
  {| token := ""; expires := Some 0; duration := 0 |}.

(** The constant [libreLinkUpHttpHeaders]. *)
Definition libreLinkUpHttpHeaders : LibreLinkUpHttpHeaders :=
  {| Authorization := None; account_id := "" |}.

(** A stand-in for [getUtcDateFromString] used by the concrete examples: it
    reads a decimal numeral. *)
Fixpoint decimalValue (s : string) (acc : Z) : Z :=
  match s with
  | EmptyString => acc
  | String c rest =>
      decimalValue rest (10 * acc + (Z.of_nat (Ascii.nat_of_ascii c) - 48))
  end.

Section Model.
Context {H : Helpers}.

(** [Entry] of [nightscout/interface]; [direction] is an optional member. *)
Record Entry : Type := {
  date : Z;
  direction : option Direction;
  sgv : Z
}.

(** The effects a cycle performs, in order. *)
Inductive Event : Type :=
| Log (level : LogLevel) (message : string)
| PostLogin (headers : LibreLinkUpHttpHeaders)
| GetConnections (headers : LibreLinkUpHttpHeaders)
| GetGraph (connectionId : string) (headers : LibreLinkUpHttpHeaders)
| NsLastEntry
| NsUploadEntries (entries : list Entry).

(** The outside world during one cycle: the clock, the process environment
    [readConfig] reads (it does not change within a cycle), and what the
    LibreLink Up API and the Nightscout client answer to each call. *)
Record Env : Type := {
  dateNow : Z;
  envConfig : Config;
  loginReply : AxiosReply LoginResponse;
  connectionsReply : LibreLinkUpHttpHeaders -> AxiosReply (list Connection);
  graphReply : string -> LibreLinkUpHttpHeaders -> AxiosReply GraphData;
  lastEntryReply : Outcome (option Entry);
  uploadEntriesReply : list Entry -> Outcome unit
}.

(** The result of running a computation. *)
Record Run (A : Type) : Type := mkRun {
  outcome : Outcome A;
  final : Globals;
  emitted : list Event
}.
Arguments mkRun {A} outcome final emitted.
Arguments outcome {A} r.
Arguments final {A} r.
Arguments emitted {A} r.

Definition M (A : Type) : Type := Env -> Globals -> Run A.

Definition ret {A : Type} (a : A) : M A :=
  fun _ g => mkRun (Returned a) g [].

Definition throw {A : Type} (msg : string) : M A :=
  fun _ g => mkRun (Thrown msg) g [].

Definition bind {A B : Type} (m : M A) (k : A -> M B) : M B :=
  fun env g =>
    match m env g with
    | mkRun (Returned a) g1 evs =>
        match k a env g1 with
        | mkRun o g2 evs' => mkRun o g2 (evs ++ evs')
        end
    | mkRun (Thrown e) g1 evs => mkRun (Thrown e) g1 evs
    end.

(** [try { body } catch (error) { handler }] *)
Definition tryCatch {A : Type} (body : M A) (handler : string -> M A) : M A :=
  fun env g =>
    match body env g with
    | mkRun (Returned a) g1 evs => mkRun (Returned a) g1 evs
    | mkRun (Thrown e) g1 evs =>
        match handler e env g1 with
        | mkRun o g2 evs' => mkRun o g2 (evs ++ evs')
        end
    end.

Definition emit (ev : Event) : M unit :=
  fun _ g => mkRun (Returned tt) g [ev].

Definition getGlobals : M Globals :=
  fun _ g => mkRun (Returned g) g [].

Definition putGlobals (g : Globals) : M unit :=
  fun _ _ => mkRun (Returned tt) g [].

Definition ask : M Env :=
  fun env g => mkRun (Returned env) g [].

End Model.

Arguments mkRun {H A} outcome final emitted.
Arguments outcome {H A} r.
Arguments final {H A} r.
Arguments emitted {H A} r.

Declare Scope js_scope.
Delimit Scope js_scope with js.
Notation "x <- m ;; k" := (bind m (fun x => k))
  (at level 61, m at next level, right associativity) : js_scope.
Notation "m ;; k" := (bind m (fun _ => k))
  (at level 61, right associativity) : js_scope.

Local Open Scope js_scope.

Section Program.
Context {H : Helpers}.

(** ** Primitives: the logger, [readConfig], axios and the Nightscout client *)

(** [logger.<level>(message)]; of a template literal the message records
    the static text (and the patient id, where it is interpolated). *)
Definition logger (level : LogLevel) (message : string) : M unit :=
  emit (Log level message).

(** [config = readConfig()] *)
Definition readConfig : M unit :=
  env <- ask ;;
  g <- getGlobals ;;
  putGlobals {| authTicket := authTicket g; userId := userId g;
                config := envConfig env |}.

(** The response interceptor: the success handler is the identity; the
    error handler logs the error and returns it. *)
Definition interceptResponse {A : Type} (reply : AxiosReply A) : M (AxiosReply A) :=
  match reply with
  | Response _ => ret reply
  | RequestError message => logger LvlError message ;; ret reply
  end.

(** [axios.post(".../llu/auth/login", credentials, { headers })] *)
Definition axiosPostLogin (headers : LibreLinkUpHttpHeaders) : M (AxiosReply LoginResponse) :=
  emit (PostLogin headers) ;;
  env <- ask ;;
  interceptResponse (loginReply env).

(** [axios.get(".../llu/connections", { headers })] *)
Definition axiosGetConnections (headers : LibreLinkUpHttpHeaders)
  : M (AxiosReply (list Connection)) :=
  emit (GetConnections headers) ;;
  env <- ask ;;
  interceptResponse (connectionsReply env headers).

(** [axios.get(".../llu/connections/" + connectionId + "/graph", { headers })] *)
Definition axiosGetGraph (connectionId : string) (headers : LibreLinkUpHttpHeaders)
  : M (AxiosReply GraphData) :=
  emit (GetGraph connectionId headers) ;;
  env <- ask ;;
  interceptResponse (graphReply env connectionId headers).

(** [response.data.<member>]: [response.data] is [undefined] on the error
    object the interceptor returned, so reading a member of it throws. *)
Definition responseData {A : Type} (response : AxiosReply A) : M A :=
  match response with
  | Response body => ret body
  | RequestError _ => throw "TypeError: Cannot read properties of undefined"
  end.

(** [nightscoutClient.lastEntry()] *)
Definition nsLastEntry : M (option Entry) :=
  emit NsLastEntry ;;
  env <- ask ;;
  match lastEntryReply env with
  | Returned e => ret e
  | Thrown msg => throw msg
  end.

(** [nightscoutClient.uploadEntries(entries)] *)
Definition nsUploadEntries (entries : list Entry) : M unit :=
  emit (NsUploadEntries entries) ;;
  env <- ask ;;
  match uploadEntriesReply env entries with
  | Returned _ => ret tt
  | Thrown msg => throw msg
  end.

(** ** The session cache *)

Definition deleteAuthTicket : M unit :=
  g <- getGlobals ;;
  putGlobals {| authTicket := emptyAuthTicket; userId := userId g;
                config := config g |}.

Definition updateAuthTicket (newAuthTicket : AuthTicket) : M unit :=
  g <- getGlobals ;;
  putGlobals {| authTicket := newAuthTicket; userId := userId g;
                config := config g |}.

Definition deleteAccountId : M unit :=
  g <- getGlobals ;;
  putGlobals {| authTicket := authTicket g; userId := ""; config := config g |}.

Definition updateAccountId (newUserId : string) : M unit :=
  g <- getGlobals ;;
  putGlobals {| authTicket := authTicket g; userId := newUserId;
                config := config g |}.

Definition getUserId : M string :=
  g <- getGlobals ;;
  ret (userId g).

Definition getAuthenticationToken : M (option string) :=
  g <- getGlobals ;;
  if truthyString (token (authTicket g)) then ret (Some (token (authTicket g)))
  else logger LvlWarn "No authTicket.token found" ;; ret None.

(** [Math.floor(Date.now() / 1000) < authTicket.expires] *)
Definition hasValidAuthentication : M bool :=
  g <- getGlobals ;;
  match expires (authTicket g) with
  | Some expiry =>
      env <- ask ;;
      let currentTime := dateNow env / 1000 in
      ret (currentTime <? expiry)
  | None => logger LvlInfo "authTicket.expires is undefined" ;; ret false
  end.

(** ["Bearer " + token], where a [null] token prints as ["null"]. *)
Definition bearer (tok : option string) : string :=
  ("Bearer " ++ match tok with Some t => t | None => "null" end)%string.

(** [authTicket] is an object, hence truthy: the account id is always set. *)
Definition getLluAuthHeaders : M LibreLinkUpHttpHeaders :=
  tok <- getAuthenticationToken ;;
  uid <- getUserId ;;
  let authenticatedHeaders :=
    {| Authorization := Some (bearer tok); account_id := sha256Hex uid |} in
  logger LvlDebug "Authenticated headers: " ;;
  ret authenticatedHeaders.

(** ** Login *)

Definition login : M (option AuthTicket) :=
  readConfig ;;
  tryCatch
    (response <- axiosPostLogin libreLinkUpHttpHeaders ;;
     data <- responseData response ;;
     if negb (status data =? 0) then
       logger LvlError "LibreLink Up - Non-zero status code: " ;;
       ret None
     else if strictEqTrue (redirect (loginData data))
             && truthyOptString (region (loginData data)) then
       logger LvlError "LibreLink Up - Logged in to the wrong region." ;;
       ret None
     else
       logger LvlInfo "Logged in to LibreLink Up" ;;
       updateAccountId (id (user (loginData data))) ;;
       ret (Some (loginAuthTicket (loginData data))))
    (fun _ => logger LvlError "Invalid credentials" ;; ret None).

(** ** Connection resolution and measurement fetching *)

(** [array[i].<member>]: reading a member of [undefined] throws. *)
Definition elementAt {A : Type} (array : list A) (i : nat) : M A :=
  match nth_error array i with
  | Some x => ret x
  | None => throw "TypeError: Cannot read properties of undefined"
  end.

(** [array.forEach(callback)] *)
Fixpoint forEach {A : Type} (array : list A) (callback : A -> M unit) : M unit :=
  match array with
  | [] => ret tt
  | x :: rest => callback x ;; forEach rest callback
  end.

Definition dumpConnectionData (connectionData : list Connection) : M unit :=
  logger LvlDebug "Found LibreLink Up connections:" ;;
  forEach connectionData (fun entry =>
    logger LvlDebug ("Patient-ID: " ++ patientId entry)%string).

Definition logPickedUpConnection (c : Connection) : M unit :=
  logger LvlInfo ("-> Using connection: Patient-ID: " ++ patientId c)%string.

Definition getLibreLinkUpConnection : M (option string) :=
  readConfig ;;
  tryCatch
    (headers <- getLluAuthHeaders ;;
     response <- axiosGetConnections headers ;;
     connectionData <- responseData response ;;
     if (List.length connectionData =? 0)%nat then
       logger LvlError "No LibreLink Up connection found" ;;
       ret None
     else if (List.length connectionData =? 1)%nat then
       logger LvlInfo "Found 1 LibreLink Up connection." ;;
       first <- elementAt connectionData 0 ;;
       logPickedUpConnection first ;;
       ret (Some (patientId first))
     else
       dumpConnectionData connectionData ;;
       g <- getGlobals ;;
       if negb (truthyOptString (linkUpConnection (config g))) then
         logger LvlWarn "LINK_UP_CONNECTION not specified, using first one found." ;;
         first <- elementAt connectionData 0 ;;
         logPickedUpConnection first ;;
         ret (Some (patientId first))
       else
         match find (fun entry =>
                       strictEqOpt (patientId entry) (linkUpConnection (config g)))
                    connectionData with
         | None =>
             logger LvlError "The specified Patient-ID was not found." ;;
             ret None
         | Some connection =>
             logPickedUpConnection connection ;;
             ret (Some (patientId connection))
         end)
    (fun _ =>
       logger LvlError "getting libreLinkUpConnection: " ;;
       deleteAuthTicket ;;
       deleteAccountId ;;
       ret None).

Definition getGlucoseMeasurements : M (option GraphData) :=
  readConfig ;;
  tryCatch
    (connectionId <- getLibreLinkUpConnection ;;
     match connectionId with
     | None => ret None
     | Some cid =>
         if negb (truthyString cid) then ret None
         else
           headers <- getLluAuthHeaders ;;
           response <- axiosGetGraph cid headers ;;
           data <- responseData response ;;
           ret (Some data)
     end)
    (fun _ =>
       logger LvlError "Error getting glucose measurements" ;;
       deleteAuthTicket ;;
       deleteAccountId ;;
       ret None).

(** ** Formatting and upload *)

(** [array.push(x)] *)
Definition push {A : Type} (array : list A) (x : A) : list A := array ++ [x].

(** [lastEntry === null || d > lastEntry.date] *)
Definition newerThan (lastEntry : option Entry) (d : Z) : bool :=
  match lastEntry with
  | None => true
  | Some e => date e <? d
  end.

(** The object literal pushed for the current measurement. *)
Definition currentEntry (glucoseMeasurement : GlucoseItem) : Entry :=
  {| date := getUtcDateFromString (FactoryTimestamp glucoseMeasurement);
     direction := Some (mapTrendArrow (TrendArrow glucoseMeasurement));
     sgv := ValueInMgPerDl glucoseMeasurement |}.

(** The object literal pushed for a graph point: no [direction] member. *)
Definition historyEntry (entry : GlucoseItem) : Entry :=
  {| date := getUtcDateFromString (FactoryTimestamp entry);
     direction := None;
     sgv := ValueInMgPerDl entry |}.

Definition createFormattedMeasurements (measurementData : GraphData) : M (list Entry) :=
  let formattedMeasurements : list Entry := [] in
  let glucoseMeasurement := glucoseMeasurement (connection measurementData) in
  let measurementDate := getUtcDateFromString (FactoryTimestamp glucoseMeasurement) in
  g <- getGlobals ;;
  lastEntry <- (if allData (config g) then ret None else nsLastEntry) ;;
  let formattedMeasurements :=
    if newerThan lastEntry measurementDate
    then push formattedMeasurements (currentEntry glucoseMeasurement)
    else formattedMeasurements in
  let formattedMeasurements :=
    fold_left
      (fun acc entry =>
         let entryDate := getUtcDateFromString (FactoryTimestamp entry) in
         if newerThan lastEntry entryDate then push acc (historyEntry entry)
         else acc)
      (graphData measurementData) formattedMeasurements in
  ret formattedMeasurements.

Definition uploadToNightScout (measurementData : GraphData) : M unit :=
  formattedMeasurements <- createFormattedMeasurements measurementData ;;
  if (0 <? List.length formattedMeasurements)%nat then
    logger LvlInfo "Uploading entries to Nightscout..." ;;
    tryCatch
      (nsUploadEntries formattedMeasurements ;;
       logger LvlInfo "Upload successful")
      (fun _ => logger LvlError "Upload to NightScout failed")
  else
    logger LvlInfo "No new measurements to upload".

(** ** The cycle *)

(** The statements of [main] after the authentication block. *)
Definition fetchAndUpload : M unit :=
  glucoseGraphData <- getGlucoseMeasurements ;;
  match glucoseGraphData with
  | None => ret tt
  | Some data => uploadToNightScout data
  end.

Definition main : M unit :=
  valid <- hasValidAuthentication ;;
  if negb valid then
    logger LvlInfo "renew token" ;;
    deleteAuthTicket ;;
    deleteAccountId ;;
    newAuthTicket <- login ;;
    match newAuthTicket with
    | None =>
        logger LvlError
          "LibreLink Up - No AuthTicket received. Please check your credentials." ;;
        deleteAuthTicket ;;
        deleteAccountId ;;
        ret tt
    | Some ticket =>
        updateAuthTicket ticket ;;
        fetchAndUpload
    end
  else fetchAndUpload.

(** One tick of the cron schedule of [start]:
    [main().catch((err) => logger.error(...))]. *)
Definition cronTick : M unit :=
  tryCatch main (fun _ => logger LvlError "Erro na execução do worker:").

(** ** Observations on a run *)

(** The remote calls among the emitted effects. *)
Definition isRemoteCall (ev : Event) : bool :=
  match ev with
  | Log _ _ => false
  | _ => true
  end.

Definition remoteCalls (evs : list Event) : list Event := filter isRemoteCall evs.

(** Calls of [nightscoutClient.uploadEntries]. *)
Definition isUpload (ev : Event) : bool :=
  match ev with
  | NsUploadEntries _ => true
  | _ => false
  end.

(** Requests for the connection list. *)
Definition isConnectionsRequest (ev : Event) : bool :=
  match ev with
  | GetConnections _ => true
  | _ => false
  end.

(** The graph fetch and both calls of the Nightscout client. *)
Definition isFetchOrUpload (ev : Event) : bool :=
  match ev with
  | GetGraph _ _ | NsLastEntry | NsUploadEntries _ => true
  | _ => false
  end.

(** The module-level variables after [config = readConfig()]. *)
Definition withConfig (g : Globals) (c : Config) : Globals :=
  {| authTicket := authTicket g; userId := userId g; config := c |}.

(** The module-level variables after [deleteAuthTicket(); deleteAccountId()]. *)
Definition clearedSession (g : Globals) : Globals :=
  {| authTicket := emptyAuthTicket; userId := ""; config := config g |}.

(** The headers [getLluAuthHeaders] builds from the session cache. *)
Definition authHeadersOf (g : Globals) : LibreLinkUpHttpHeaders :=
  {| Authorization :=
       Some (bearer (if truthyString (token (authTicket g))
                     then Some (token (authTicket g)) else None));
     account_id := sha256Hex (userId g) |}.

(** The dedup/format stage as the specification words it: the current
    reading first when it is newer than the watermark, then the historical
    points that are newer, in their given order. *)
Definition formatSpec (lastStoredEntry : option Entry) (measurementData : GraphData)
  : list Entry :=
  let current := glucoseMeasurement (connection measurementData) in
  (if newerThan lastStoredEntry (getUtcDateFromString (FactoryTimestamp current))
   then [currentEntry current] else [])
  ++ map historyEntry
       (filter (fun e => newerThan lastStoredEntry
                           (getUtcDateFromString (FactoryTimestamp e)))
               (graphData measurementData)).

(** The connection resolver as the specification words it. *)
Definition resolveSpec (configuredId : option string) (connections : list Connection)
  : option string :=
  match connections with
  | [] => None
  | [only] => Some (patientId only)
  | first :: _ =>
      if truthyOptString configuredId then
        option_map patientId
          (find (fun c => strictEqOpt (patientId c) configuredId) connections)
      else Some (patientId first)
  end.

(** The timestamps of the fetched readings: the current one, then the
    history. *)
Definition readingDates (measurementData : GraphData) : list Z :=
  map (fun e => getUtcDateFromString (FactoryTimestamp e))
      (glucoseMeasurement (connection measurementData) :: graphData measurementData).

(** The connection id [getGlucoseMeasurements] goes on with: a resolved,
    non-empty patient id. *)
Definition usableConnectionId (resolved : option string) : option string :=
  match resolved with
  | Some cid => if truthyString cid then Some cid else None
  | None => None
  end.

(** A run preceded by effects that were emitted before it. *)
Definition prefixed {A : Type} (evs : list Event) (r : Run A) : Run A :=
  mkRun (outcome r) (final r) (evs ++ emitted r).

(** The request [ev] was answered by an error. *)
Definition requestFailed (env : Env) (ev : Event) : Prop :=
  match ev with
  | GetConnections headers =>
      exists msg, connectionsReply env headers = RequestError msg
  | GetGraph cid headers =>
      exists msg, graphReply env cid headers = RequestError msg
  | _ => False
  end.

(** Fetch failure: a connections or graph request of the run failed. *)
Definition fetchFailed (env : Env) (r : Run unit) : Prop :=
  exists ev, In ev (emitted r) /\ requestFailed env ev.

(** Authentication failure: the cycle needed a login and [login] returned
    [null]. *)
Definition authenticationFailed (env : Env) (g : Globals) : Prop :=
  outcome (hasValidAuthentication env g) = Returned false /\
  outcome (login env g) = Returned None.

(** Successive ticks of the schedule, each in the environment of its
    time; the module-level variables carry over from one cycle to the
    next. *)
Fixpoint runCycles (envs : list Env) (g : Globals) : list Event * Globals :=
  match envs with
  | [] => ([], g)
  | env :: later =>
      let r := cronTick env g in
      let '(evs, g') := runCycles later (final r) in
      (emitted r ++ evs, g')
  end.

(** What [uploadToNightScout] does once the measurements are formatted. *)
Definition uploadEffects (env : Env) (formatted : list Entry) : list Event :=
  match formatted with
  | [] => [Log LvlInfo "No new measurements to upload"]
  | _ :: _ =>
      [Log LvlInfo "Uploading entries to Nightscout...";
       NsUploadEntries formatted;
       match uploadEntriesReply env formatted with
       | Returned _ => Log LvlInfo "Upload successful"
       | Thrown _ => Log LvlError "Upload to NightScout failed"
       end]
  end.

(** The cycle ended with the session it authenticated with: the one it
    started with when that was still valid, and otherwise the ticket and
    account id of its login. *)
Definition keepsAuthenticatedSession (env : Env) (g : Globals) (r : Run unit) : Prop :=
  (outcome (hasValidAuthentication env g) = Returned true ->
   authTicket (final r) = authTicket g /\ userId (final r) = userId g) /\
  (forall ticket,
     outcome (hasValidAuthentication env g) = Returned false ->
     outcome (login env g) = Returned (Some ticket) ->
     authTicket (final r) = ticket /\
     userId (final r) = userId (final (login env (clearedSession g)))).

(** ** The stealth cipher list *)

(** [[d[0], d[2], d[1], ...d.slice(3)]] for [d = defaultCiphers], the
    default cipher list split at its colons: the second and third ciphers
    change places.  An index past the end reads [undefined]. *)
Definition stealthCiphers (defaultCiphers : list string) : list (option string) :=
  [nth_error defaultCiphers 0; nth_error defaultCiphers 2;
   nth_error defaultCiphers 1]
  ++ map Some (skipn 3 defaultCiphers).

(** ** Summaries of a cycle *)

(** The place of a remote call in the pipeline. *)
Definition stage (ev : Event) : nat :=
  match ev with
  | Log _ _ => 0
  | PostLogin _ => 1
  | GetConnections _ => 2
  | GetGraph _ _ => 3
  | NsLastEntry => 4
  | NsUploadEntries _ => 5
  end.

Fixpoint increasing (stages : list nat) : bool :=
  match stages with
  | a :: (b :: _) as later => (a <? b)%nat && increasing later
  | _ => true
  end.

(** Outcome, whether the session cache was cleared, and remote calls. *)
Record Summary : Type := {
  sOutcome : Outcome unit;
  sCleared : bool;
  sCalls : list Event
}.

Definition uploadCalls (formatted : list Entry) : list Event :=
  match formatted with
  | [] => []
  | _ :: _ => [NsUploadEntries formatted]
  end.

(** The upload stage, read off the Nightscout replies. *)
Definition uploadSummary (env : Env) (allDataFlag : bool) (data : GraphData)
  : Summary :=
  if allDataFlag then
    {| sOutcome := Returned tt; sCleared := false;
       sCalls := uploadCalls (formatSpec None data) |}
  else
    match lastEntryReply env with
    | Returned last =>
        {| sOutcome := Returned tt; sCleared := false;
           sCalls := NsLastEntry :: uploadCalls (formatSpec last data) |}
    | Thrown msg =>
        {| sOutcome := Thrown msg; sCleared := false; sCalls := [NsLastEntry] |}
    end.

(** The authenticated part of a cycle, read off the replies. *)
Definition fetchSummary (env : Env) (g : Globals) : Summary :=
  let h := authHeadersOf g in
  match connectionsReply env h with
  | RequestError _ =>
      {| sOutcome := Returned tt; sCleared := true; sCalls := [GetConnections h] |}
  | Response conns =>
      match usableConnectionId
              (resolveSpec (linkUpConnection (envConfig env)) conns) with
      | None =>
          {| sOutcome := Returned tt; sCleared := false;
             sCalls := [GetConnections h] |}
      | Some cid =>
          match graphReply env cid h with
          | RequestError _ =>
              {| sOutcome := Returned tt; sCleared := true;
                 sCalls := [GetConnections h; GetGraph cid h] |}
          | Response data =>
              let up := uploadSummary env (allData (envConfig env)) data in
              {| sOutcome := sOutcome up; sCleared := false;
                 sCalls := GetConnections h :: GetGraph cid h :: sCalls up |}
          end
      end
  end.

(** The module-level variables a summary stands for. *)
Definition summaryFinal (env : Env) (g : Globals) (s : Summary) : Globals :=
  if sCleared s then clearedSession (withConfig g (envConfig env))
  else withConfig g (envConfig env).


End Program.

(** ** Concrete data for the examples *)

Definition sampleHelpers : Helpers :=
  {| Direction := Z;
     mapTrendArrow := fun arrow => match arrow with Some v => v | None => 0 end;
     getUtcDateFromString := fun s => decimalValue s 0;
     sha256Hex := fun s => s |}.

Definition sampleItem (timestamp : string) (value : Z) : GlucoseItem :=
  {| FactoryTimestamp := timestamp; ValueInMgPerDl := value; TrendArrow := Some 3 |}.

Definition sampleConnection (pid timestamp : string) : Connection :=
  {| patientId := pid; firstName := "Ada"; lastName := "L";
     glucoseMeasurement := sampleItem timestamp 110 |}.

(** Current reading at 150, history at 90 and 100. *)
Definition sampleGraph : GraphData :=
  {| connection := sampleConnection "p1" "150";
     graphData := [sampleItem "90" 101; sampleItem "100" 102] |}.

Definition sampleConfig : Config :=
  {| linkUpConnection := None; allData := false |}.

Definition sampleTicket : AuthTicket :=
  {| token := "tok"; expires := Some 2000; duration := 1000 |}.

(** A session that is valid at the time of [sampleEnv]. *)
Definition sampleGlobals : Globals :=
  {| authTicket := sampleTicket; userId := "user-1"; config := sampleConfig |}.

Definition sampleWatermark : Entry (H := sampleHelpers) :=
  {| date := 100; direction := None; sgv := 102 |}.

Definition sampleLogin : LoginResponse :=
  {| status := 0;
     loginData := {| redirect := None; region := None;
                     user := {| id := "user-1" |};
                     loginAuthTicket := sampleTicket |} |}.

(** An environment at second 1500 with Nightscout's last entry at 100. *)
Definition sampleEnvWith (cfg : Config) (login : AxiosReply LoginResponse)
    (connections : AxiosReply (list Connection)) (graph : AxiosReply GraphData)
    (upload : Outcome unit) : Env (H := sampleHelpers) :=
  {| dateNow := 1500000;
     envConfig := cfg;
     loginReply := login;
     connectionsReply := fun _ => connections;
     graphReply := fun _ _ => graph;
     lastEntryReply := Returned (Some sampleWatermark);
     uploadEntriesReply := fun _ => upload |}.

(** Everything succeeds: one connection, one new reading. *)
Definition sampleEnv : Env (H := sampleHelpers) :=
  sampleEnvWith sampleConfig (Response sampleLogin)
    (Response [sampleConnection "p1" "150"]) (Response sampleGraph) (Returned tt).

(** The account follows nobody. *)
Definition noConnectionEnv : Env (H := sampleHelpers) :=
  sampleEnvWith sampleConfig (Response sampleLogin)
    (Response []) (Response sampleGraph) (Returned tt).

Definition twoConnections : list Connection :=
  [sampleConnection "p1" "150"; sampleConnection "p2" "150"].

(** Two connections, and a configured patient id that is neither. *)
Definition unmatchedEnv : Env (H := sampleHelpers) :=
  sampleEnvWith {| linkUpConnection := Some "p9"; allData := false |}
    (Response sampleLogin) (Response twoConnections) (Response sampleGraph)
    (Returned tt).

(** The connections request fails. *)
Definition connectionsDownEnv : Env (H := sampleHelpers) :=
  sampleEnvWith sampleConfig (Response sampleLogin)
    (RequestError "ECONNRESET") (Response sampleGraph) (Returned tt).

(** The login is answered with a non-zero status. *)
Definition rejectedLoginEnv : Env (H := sampleHelpers) :=
  sampleEnvWith sampleConfig
    (Response {| status := 2; loginData := loginData sampleLogin |})
    (Response [sampleConnection "p1" "150"]) (Response sampleGraph) (Returned tt).

(** Nightscout rejects the upload. *)
Definition uploadDownEnv : Env (H := sampleHelpers) :=
  sampleEnvWith sampleConfig (Response sampleLogin)
    (Response [sampleConnection "p1" "150"]) (Response sampleGraph)
    (Thrown "failed to post new entries").

(** A session whose ticket expired at second 1000. *)
Definition expiredGlobals : Globals :=
  {| authTicket := {| token := "old"; expires := Some 1000; duration := 1000 |};
     userId := "user-1"; config := sampleConfig |}.

(** The all-data flag is set. *)
Definition allDataGlobals : Globals :=
  {| authTicket := sampleTicket; userId := "user-1";
     config := {| linkUpConnection := None; allData := true |} |}.

(** The one entry [sampleGraph] yields above the watermark. *)
Definition sampleNewEntry : Entry (H := sampleHelpers) :=
  {| date := 150; direction := Some (mapTrendArrow (Some 3)); sgv := 110 |}.

(** Nightscout fails to tell its last entry. *)
Definition lastEntryDownEnv : Env (H := sampleHelpers) :=
  {| dateNow := 1500000;
     envConfig := sampleConfig;
     loginReply := Response sampleLogin;
     connectionsReply := fun _ => Response [sampleConnection "p1" "150"];
     graphReply := fun _ _ => Response sampleGraph;
     lastEntryReply := Thrown "failed to get last entry";
     uploadEntriesReply := fun _ => Returned tt |}.

(** As [sampleEnv], once the entry at 150 has reached Nightscout. *)
Definition afterUploadEnv : Env (H := sampleHelpers) :=
  {| dateNow := 1800000;
     envConfig := sampleConfig;
     loginReply := Response sampleLogin;
     connectionsReply := fun _ => Response [sampleConnection "p1" "150"];
     graphReply := fun _ _ => Response sampleGraph;
     lastEntryReply := Returned (Some sampleNewEntry);
     uploadEntriesReply := fun _ => Returned tt |}.

(** The login request gets no answer. *)
Definition loginDownEnv : Env (H := sampleHelpers) :=
  sampleEnvWith sampleConfig (RequestError "ETIMEDOUT")
    (Response [sampleConnection "p1" "150"]) (Response sampleGraph) (Returned tt).

(** A ticket that came without an expiry. *)
Definition noExpiryGlobals : Globals :=
  {| authTicket := {| token := "tok"; expires := None; duration := 1000 |};
     userId := "user-1"; config := sampleConfig |}.

Definition sampleCiphers : list string :=
  ["TLS_AES_256_GCM_SHA384"; "TLS_CHACHA20_POLY1305_SHA256";
   "TLS_AES_128_GCM_SHA256"; "ECDHE-RSA-AES128-GCM-SHA256"].


(** ** Properties *)

Section Properties.
Context {H : Helpers}.

(** *** Remote calls of a list of effects *)

Lemma remoteCalls_app (xs ys : list Event) :
  remoteCalls (xs ++ ys) = remoteCalls xs ++ remoteCalls ys.
Proof.
  unfold remoteCalls. apply filter_app.
Qed.

Lemma remoteCalls_cons (ev : Event) (evs : list Event) :
  remoteCalls (ev :: evs)
  = if isRemoteCall ev then ev :: remoteCalls evs else remoteCalls evs.
Proof. reflexivity. Qed.

Lemma remoteCalls_nil : remoteCalls [] = [].
Proof. reflexivity. Qed.

(** Symbolic execution of the primitives; calls of the functions of
    [index.ts] stay folded. *)
Ltac run_prims :=
  repeat (progress (
    cbv beta iota zeta delta
      [bind ret throw tryCatch emit getGlobals putGlobals ask logger readConfig
       interceptResponse responseData elementAt nsLastEntry nsUploadEntries
       deleteAuthTicket updateAuthTicket deleteAccountId updateAccountId
       getUserId getAuthenticationToken axiosPostLogin axiosGetConnections
       axiosGetGraph logPickedUpConnection];
    cbn [outcome final emitted app authTicket userId config])).

(** Closes a goal on the remote calls of a composed list of effects. *)
Ltac calls :=
  repeat (rewrite remoteCalls_app || rewrite remoteCalls_cons
          || rewrite remoteCalls_nil);
  cbn [isRemoteCall];
  repeat match goal with
         | Hc : remoteCalls _ = _ |- _ => rewrite Hc
         end;
  reflexivity.

(** *** The dedup/format stage *)

Lemma forEach_push_filter (lastEntry : option Entry) (points : list GlucoseItem) :
  forall acc,
    fold_left
      (fun acc entry =>
         let entryDate := getUtcDateFromString (FactoryTimestamp entry) in
         if newerThan lastEntry entryDate then push acc (historyEntry entry)
         else acc)
      points acc
    = acc ++ map historyEntry
               (filter (fun e => newerThan lastEntry
                                   (getUtcDateFromString (FactoryTimestamp e)))
                       points).
Proof.
  induction points as [|p rest IH]; intros acc; simpl.
  - now rewrite app_nil_r.
  - rewrite IH. destruct (newerThan lastEntry _); simpl.
    + unfold push. now rewrite <- app_assoc.
    + reflexivity.
Qed.

(** With the all-data flag set nothing is asked of Nightscout. *)
Lemma createFormattedMeasurements_allData env g md :
  allData (config g) = true ->
  createFormattedMeasurements md env g = mkRun (Returned (formatSpec None md)) g [].
Proof.
  intros Hall. unfold createFormattedMeasurements. run_prims.
  rewrite Hall. run_prims.
  rewrite forEach_push_filter. reflexivity.
Qed.

(** Otherwise the last entry is fetched once and used as the watermark. *)
Lemma createFormattedMeasurements_lastEntry env g md lastEntry :
  allData (config g) = false ->
  lastEntryReply env = Returned lastEntry ->
  createFormattedMeasurements md env g
  = mkRun (Returned (formatSpec lastEntry md)) g [NsLastEntry].
Proof.
  intros Hall Hlast. unfold createFormattedMeasurements. run_prims.
  rewrite Hall, Hlast. run_prims.
  rewrite forEach_push_filter. unfold formatSpec.
  destruct (newerThan lastEntry _); reflexivity.
Qed.

(** A failing [lastEntry] call escapes [createFormattedMeasurements]. *)
Lemma createFormattedMeasurements_lastEntry_thrown env g md msg :
  allData (config g) = false ->
  lastEntryReply env = Thrown msg ->
  createFormattedMeasurements md env g = mkRun (Thrown msg) g [NsLastEntry].
Proof.
  intros Hall Hlast. unfold createFormattedMeasurements. run_prims.
  rewrite Hall, Hlast. reflexivity.
Qed.

Lemma Permutation_filter_compat {A : Type} (f : A -> bool) (l l' : list A) :
  Permutation l l' -> Permutation (filter f l) (filter f l').
Proof.
  induction 1 as [|x l l' _ IH|x y l|l l' l'' _ IH1 _ IH2]; simpl.
  - constructor.
  - destruct (f x); [now constructor | assumption].
  - destruct (f x), (f y); try reflexivity. apply perm_swap.
  - now transitivity (filter f l').
Qed.

Lemma formatSpec_dates (lastEntry : option Entry) md :
  map date (formatSpec lastEntry md)
  = filter (newerThan lastEntry) (readingDates md).
Proof.
  unfold formatSpec, readingDates. rewrite map_app, map_map. cbn [map filter].
  rewrite filter_map_swap.
  destruct (newerThan lastEntry _); reflexivity.
Qed.

Lemma in_formatSpec_current (lastEntry : option Entry) md :
  let current := glucoseMeasurement (connection md) in
  In (currentEntry current) (formatSpec lastEntry md)
  <-> newerThan lastEntry (getUtcDateFromString (FactoryTimestamp current)) = true.
Proof.
  cbn zeta. unfold formatSpec. rewrite in_app_iff. split.
  - intros [Hcur | Hhist].
    + destruct (newerThan lastEntry _); [reflexivity | destruct Hcur].
    + apply in_map_iff in Hhist as (e & Heq & _). discriminate Heq.
  - intros Hnew. left. rewrite Hnew. now left.
Qed.

Lemma in_formatSpec_history (lastEntry : option Entry) md e :
  In e (graphData md) ->
  In (historyEntry e) (formatSpec lastEntry md)
  <-> newerThan lastEntry (getUtcDateFromString (FactoryTimestamp e)) = true.
Proof.
  intros Hin. unfold formatSpec. rewrite in_app_iff. split.
  - intros [Hcur | Hhist].
    + destruct (newerThan lastEntry
                  (getUtcDateFromString
                     (FactoryTimestamp (glucoseMeasurement (connection md))))).
      * destruct Hcur as [Heq | []]. discriminate Heq.
      * destruct Hcur.
    + apply in_map_iff in Hhist as (e' & Heq & Hin').
      apply filter_In in Hin' as [_ Hnew].
      assert (Hdate : date (historyEntry e') = date (historyEntry e))
        by now rewrite Heq.
      cbn in Hdate. now rewrite <- Hdate.
  - intros Hnew. right. apply in_map. apply filter_In. now split.
Qed.

Lemma formatSpec_no_watermark md :
  formatSpec None md
  = currentEntry (glucoseMeasurement (connection md))
    :: map historyEntry (graphData md).
Proof.
  unfold formatSpec. cbn [newerThan app]. f_equal. f_equal.
  induction (graphData md) as [|p rest IH]; [reflexivity|].
  cbn [filter]. now rewrite IH.
Qed.

(** C1: with a watermark [w] fetched from Nightscout, a fetched reading (the
    current measurement or a graph point) is part of the output of
    [createFormattedMeasurements] if and only if its timestamp is strictly
    greater than the watermark's, and the emitted dates are exactly the
    fetched dates that are greater.  With watermark 100 and readings at 90,
    100 and 150, in whatever order they were fetched, only the reading at
    150 is emitted. *)
Theorem createFormattedMeasurements_strictly_newer env g md w :
  allData (config g) = false ->
  lastEntryReply env = Returned (Some w) ->
  exists out,
    outcome (createFormattedMeasurements md env g) = Returned out /\
    (In (currentEntry (glucoseMeasurement (connection md))) out
     <-> getUtcDateFromString
           (FactoryTimestamp (glucoseMeasurement (connection md))) > date w) /\
    (forall e, In e (graphData md) ->
       (In (historyEntry e) out
        <-> getUtcDateFromString (FactoryTimestamp e) > date w)) /\
    map date out = filter (fun t => date w <? t) (readingDates md) /\
    (date w = 100 -> Permutation (readingDates md) [90; 100; 150] ->
     map date out = [150]).
Proof.
  intros Hall Hlast. exists (formatSpec (Some w) md).
  rewrite (createFormattedMeasurements_lastEntry _ _ _ _ Hall Hlast).
  split; [reflexivity|]. split; [|split; [|split]].
  - rewrite in_formatSpec_current. cbn [newerThan]. rewrite Z.ltb_lt. lia.
  - intros e Hin. rewrite (in_formatSpec_history _ _ _ Hin).
    cbn [newerThan]. rewrite Z.ltb_lt. lia.
  - apply formatSpec_dates.
  - intros Hw Hperm. rewrite formatSpec_dates.
    change (newerThan (Some w)) with (fun t => date w <? t). rewrite Hw.
    apply (Permutation_filter_compat (fun t => 100 <? t)) in Hperm.
    cbn in Hperm. symmetry in Hperm.
    now apply Permutation_length_1_inv in Hperm.
Qed.

(** C2: without a watermark (the all-data flag is set, in which case
    Nightscout is not asked for its last entry, or the last entry is
    [null]) every fetched reading is emitted: the current measurement
    first, with a trend direction, then the graph points in their order,
    each without one. *)
Theorem createFormattedMeasurements_without_watermark env g md :
  allData (config g) = true \/
  (allData (config g) = false /\ lastEntryReply env = Returned None) ->
  let r := createFormattedMeasurements md env g in
  let current := glucoseMeasurement (connection md) in
  outcome r
  = Returned (currentEntry current :: map historyEntry (graphData md)) /\
  direction (currentEntry current) = Some (mapTrendArrow (TrendArrow current)) /\
  (forall e, In e (graphData md) -> direction (historyEntry e) = None) /\
  (allData (config g) = true -> emitted r = []).
Proof.
  intros Hcase r current. subst r current.
  destruct Hcase as [Hflag | [Hflag Hlast]].
  - rewrite (createFormattedMeasurements_allData _ _ _ Hflag).
    cbn [outcome emitted]. rewrite formatSpec_no_watermark.
    repeat split; reflexivity.
  - rewrite (createFormattedMeasurements_lastEntry _ _ _ _ Hflag Hlast).
    cbn [outcome emitted]. rewrite formatSpec_no_watermark.
    repeat split. intros Habs. congruence.
Qed.

(** C10: nothing removes duplicates among the fetched readings.  Whatever
    the date parser, when a graph point carries the timestamp of the
    current measurement and the watermark is older, both are emitted: two
    entries with one date, the first with a trend direction and the second
    without. *)
Theorem createFormattedMeasurements_keeps_duplicate_dates :
  exists (env : Env) (g : Globals) (md : GraphData) (w e1 e2 : Entry),
    lastEntryReply env = Returned (Some w) /\
    outcome (createFormattedMeasurements md env g) = Returned [e1; e2] /\
    date e1 = date e2 /\ date e1 > date w /\
    direction e1 <> None /\ direction e2 = None.
Proof.
  pose (w := {| date := getUtcDateFromString "150" - 1; direction := None;
                sgv := 102 |}).
  pose (env := {| dateNow := 0; envConfig := sampleConfig;
                  loginReply := RequestError "";
                  connectionsReply := fun _ => RequestError "";
                  graphReply := fun _ _ => RequestError "";
                  lastEntryReply := Returned (Some w);
                  uploadEntriesReply := fun _ => Returned tt |}).
  pose (md := {| connection := sampleConnection "p1" "150";
                 graphData := [sampleItem "150" 110] |}).
  exists env, sampleGlobals, md, w,
    (currentEntry (sampleItem "150" 110)), (historyEntry (sampleItem "150" 110)).
  split; [reflexivity|].
  rewrite (createFormattedMeasurements_lastEntry env sampleGlobals md (Some w)
             eq_refl eq_refl).
  unfold formatSpec. cbn.
  assert (Hnew : (getUtcDateFromString "150" - 1 <? getUtcDateFromString "150")
                 = true)
    by (apply Z.ltb_lt; lia).
  rewrite Hnew. cbn. repeat split; try lia. discriminate.
Qed.

(** *** The session cache *)

(** C9: when the stored ticket has a defined expiry, the validity check
    returns [true] exactly when the current time in whole seconds is
    strictly less than that expiry; it changes and emits nothing. *)
Theorem hasValidAuthentication_iff_before_expiry env g expiry :
  expires (authTicket g) = Some expiry ->
  exists b,
    hasValidAuthentication env g = mkRun (Returned b) g [] /\
    (b = true <-> dateNow env / 1000 < expiry).
Proof.
  intros Hexp. exists (dateNow env / 1000 <? expiry). split.
  - unfold hasValidAuthentication. run_prims. rewrite Hexp. reflexivity.
  - apply Z.ltb_lt.
Qed.

(** *** Authenticated headers *)

Lemma getLluAuthHeaders_run env g :
  exists logs,
    getLluAuthHeaders env g = mkRun (Returned (authHeadersOf g)) g logs /\
    remoteCalls logs = [].
Proof.
  unfold getLluAuthHeaders, authHeadersOf. run_prims.
  destruct (truthyString (token (authTicket g))); run_prims;
    eexists; split; reflexivity.
Qed.

(** *** Login *)

(** [login] never throws, issues exactly one request, and touches neither
    the ticket nor, when it returns [null], the account id. *)
Lemma login_run env g :
  exists o g' logs,
    login env g = mkRun (Returned o) g' logs /\
    authTicket g' = authTicket g /\
    config g' = envConfig env /\
    remoteCalls logs = [PostLogin libreLinkUpHttpHeaders] /\
    (o = None -> userId g' = userId g).
Proof.
  unfold login. run_prims.
  destruct (loginReply env) as [resp | msg]; run_prims.
  - destruct (negb (status resp =? 0)); run_prims.
    + do 3 eexists. repeat split.
    + destruct (strictEqTrue (redirect (loginData resp))
                && truthyOptString (region (loginData resp))); run_prims.
      * do 3 eexists. repeat split.
      * do 3 eexists. repeat split. discriminate.
  - do 3 eexists. repeat split.
Qed.

Lemma region_redirect_iff (data : LoginData) :
  strictEqTrue (redirect data) && truthyOptString (region data) = true
  <-> (redirect data = Some true /\
       exists correctRegion,
         region data = Some correctRegion /\ correctRegion <> "").
Proof.
  rewrite andb_true_iff. unfold strictEqTrue, truthyOptString, truthyString.
  split.
  - intros [Hred Hreg].
    destruct (redirect data) as [[|]|]; try discriminate.
    destruct (region data) as [reg|]; try discriminate.
    split; [reflexivity|]. exists reg. split; [reflexivity|].
    apply negb_true_iff in Hreg. now apply String.eqb_neq in Hreg.
  - intros [Hred (reg & Hreg & Hne)]. rewrite Hred, Hreg.
    split; [reflexivity|]. apply negb_true_iff. now apply String.eqb_neq.
Qed.

(** C6: on a response with a non-zero status, or one that asks to redirect
    to a (non-empty) region, [login] returns [null] and leaves the cached
    account id and ticket alone; on any other response it caches the
    response's user id as the account id and returns the response's ticket. *)
Theorem login_by_response env g resp :
  loginReply env = Response resp ->
  let r := login env g in
  ((status resp <> 0 \/
    (redirect (loginData resp) = Some true /\
     exists correctRegion,
       region (loginData resp) = Some correctRegion /\ correctRegion <> "")) ->
   outcome r = Returned None /\
   userId (final r) = userId g /\ authTicket (final r) = authTicket g) /\
  (status resp = 0 ->
   ~ (redirect (loginData resp) = Some true /\
      exists correctRegion,
        region (loginData resp) = Some correctRegion /\ correctRegion <> "") ->
   outcome r = Returned (Some (loginAuthTicket (loginData resp))) /\
   userId (final r) = id (user (loginData resp)) /\
   authTicket (final r) = authTicket g).
Proof.
  intros Hreply r. subst r. unfold login. run_prims. rewrite Hreply. run_prims.
  pose proof (region_redirect_iff (loginData resp)) as Hredirect.
  split.
  - intros [Hstatus | Hred].
    + apply Z.eqb_neq in Hstatus. rewrite Hstatus. run_prims. cbn. repeat split.
    + destruct (negb (status resp =? 0)); run_prims; [repeat split|].
      apply Hredirect in Hred. rewrite Hred. run_prims. repeat split.
  - intros Hstatus Hnot. apply Z.eqb_eq in Hstatus. rewrite Hstatus. cbn [negb].
    destruct (strictEqTrue (redirect (loginData resp))
              && truthyOptString (region (loginData resp))) eqn:Hcond.
    + exfalso. apply Hnot. now apply Hredirect.
    + run_prims. repeat split.
Qed.

(** *** Connection resolution *)

Lemma dumpConnectionData_run env g conns :
  exists logs,
    dumpConnectionData conns env g = mkRun (Returned tt) g logs /\
    remoteCalls logs = [].
Proof.
  unfold dumpConnectionData. run_prims.
  assert (Hloop : exists logs,
             forEach conns
               (fun entry (_ : Env) (g0 : Globals) =>
                  mkRun (Returned tt) g0
                    [Log LvlDebug ("Patient-ID: " ++ patientId entry)%string])
               env g
             = mkRun (Returned tt) g logs /\ remoteCalls logs = []).
  { induction conns as [|c rest IH]; cbn [forEach]; run_prims.
    - eexists; split; reflexivity.
    - destruct IH as (logs & Hrun & Hcalls). rewrite Hrun.
      eexists; split; [reflexivity | exact Hcalls]. }
  destruct Hloop as (logs & Hrun & Hcalls). rewrite Hrun.
  eexists; split; [reflexivity | exact Hcalls].
Qed.


(** When the connections request is answered, resolution follows the
    policy and leaves the session cache alone. *)
Lemma getLibreLinkUpConnection_answered env g conns :
  connectionsReply env (authHeadersOf g) = Response conns ->
  exists logs,
    getLibreLinkUpConnection env g
    = mkRun (Returned (resolveSpec (linkUpConnection (envConfig env)) conns))
            (withConfig g (envConfig env)) logs /\
    remoteCalls logs = [GetConnections (authHeadersOf g)].
Proof.
  intros Hreply. unfold getLibreLinkUpConnection. run_prims.
  destruct (getLluAuthHeaders_run env (withConfig g (envConfig env)))
    as (hlogs & Hheaders & Hhcalls).
  unfold withConfig in *. rewrite Hheaders.
  change (authHeadersOf _) with (authHeadersOf g). rewrite Hreply.
  destruct conns as [|c1 [|c2 rest]]; cbn [List.length Nat.eqb nth_error].
  - eexists. split; [reflexivity | calls].
  - eexists. split; [reflexivity | calls].
  - destruct (dumpConnectionData_run env
                {| authTicket := authTicket g; userId := userId g;
                   config := envConfig env |} (c1 :: c2 :: rest))
      as (dlogs & Hdump & Hdcalls).
    rewrite Hdump. run_prims. cbn [resolveSpec].
    destruct (truthyOptString (linkUpConnection (envConfig env))); cbn [negb].
    + destruct (find _ (c1 :: c2 :: rest)) as [c|];
        (eexists; split; [reflexivity | calls]).
    + eexists. split; [reflexivity | calls].
Qed.

(** When the connections request fails, reading the reply throws, and the
    handler clears the session cache. *)
Lemma getLibreLinkUpConnection_failed env g msg :
  connectionsReply env (authHeadersOf g) = RequestError msg ->
  exists logs,
    getLibreLinkUpConnection env g
    = mkRun (Returned None) (clearedSession (withConfig g (envConfig env))) logs /\
    remoteCalls logs = [GetConnections (authHeadersOf g)].
Proof.
  intros Hreply. unfold getLibreLinkUpConnection. run_prims.
  destruct (getLluAuthHeaders_run env (withConfig g (envConfig env)))
    as (hlogs & Hheaders & Hhcalls).
  unfold withConfig in *. rewrite Hheaders.
  change (authHeadersOf _) with (authHeadersOf g). rewrite Hreply.
  eexists. split; [reflexivity | calls].
Qed.

(** *** Measurement fetching *)

Lemma getGlucoseMeasurements_connections_failed env g msg :
  connectionsReply env (authHeadersOf g) = RequestError msg ->
  exists logs,
    getGlucoseMeasurements env g
    = mkRun (Returned None) (clearedSession (withConfig g (envConfig env))) logs /\
    remoteCalls logs = [GetConnections (authHeadersOf g)].
Proof.
  intros Hreply. unfold getGlucoseMeasurements. run_prims.
  destruct (getLibreLinkUpConnection_failed env (withConfig g (envConfig env)) msg
              Hreply) as (clogs & Hconn & Hccalls).
  unfold withConfig in *. rewrite Hconn. run_prims.
  eexists. split; [reflexivity | calls].
Qed.

Lemma getGlucoseMeasurements_unresolved env g conns :
  connectionsReply env (authHeadersOf g) = Response conns ->
  usableConnectionId (resolveSpec (linkUpConnection (envConfig env)) conns) = None ->
  exists logs,
    getGlucoseMeasurements env g
    = mkRun (Returned None) (withConfig g (envConfig env)) logs /\
    remoteCalls logs = [GetConnections (authHeadersOf g)].
Proof.
  intros Hreply Hnone. unfold getGlucoseMeasurements. run_prims.
  destruct (getLibreLinkUpConnection_answered env (withConfig g (envConfig env))
              conns Hreply) as (clogs & Hconn & Hccalls).
  unfold withConfig in *. rewrite Hconn. run_prims.
  destruct (resolveSpec _ conns) as [cid|]; cbn [usableConnectionId] in Hnone.
  - destruct (truthyString cid); [discriminate|]. cbn [negb].
    eexists. split; [reflexivity | calls].
  - eexists. split; [reflexivity | calls].
Qed.

Lemma getGlucoseMeasurements_graph_failed env g conns cid msg :
  connectionsReply env (authHeadersOf g) = Response conns ->
  usableConnectionId (resolveSpec (linkUpConnection (envConfig env)) conns)
  = Some cid ->
  graphReply env cid (authHeadersOf g) = RequestError msg ->
  exists logs,
    getGlucoseMeasurements env g
    = mkRun (Returned None) (clearedSession (withConfig g (envConfig env))) logs /\
    remoteCalls logs
    = [GetConnections (authHeadersOf g); GetGraph cid (authHeadersOf g)].
Proof.
  intros Hreply Hcid Hgraph. unfold getGlucoseMeasurements. run_prims.
  destruct (getLibreLinkUpConnection_answered env (withConfig g (envConfig env))
              conns Hreply) as (clogs & Hconn & Hccalls).
  destruct (getLluAuthHeaders_run env (withConfig g (envConfig env)))
    as (hlogs & Hheaders & Hhcalls).
  unfold withConfig in *. rewrite Hconn. run_prims.
  destruct (resolveSpec _ conns) as [cid'|]; cbn [usableConnectionId] in Hcid;
    [|discriminate].
  destruct (truthyString cid'); [|discriminate]. injection Hcid as ->.
  cbn [negb]. rewrite Hheaders. run_prims.
  change (authHeadersOf _) with (authHeadersOf g). rewrite Hgraph.
  eexists. split; [reflexivity | calls].
Qed.

Lemma getGlucoseMeasurements_fetched env g conns cid data :
  connectionsReply env (authHeadersOf g) = Response conns ->
  usableConnectionId (resolveSpec (linkUpConnection (envConfig env)) conns)
  = Some cid ->
  graphReply env cid (authHeadersOf g) = Response data ->
  exists logs,
    getGlucoseMeasurements env g
    = mkRun (Returned (Some data)) (withConfig g (envConfig env)) logs /\
    remoteCalls logs
    = [GetConnections (authHeadersOf g); GetGraph cid (authHeadersOf g)].
Proof.
  intros Hreply Hcid Hgraph. unfold getGlucoseMeasurements. run_prims.
  destruct (getLibreLinkUpConnection_answered env (withConfig g (envConfig env))
              conns Hreply) as (clogs & Hconn & Hccalls).
  destruct (getLluAuthHeaders_run env (withConfig g (envConfig env)))
    as (hlogs & Hheaders & Hhcalls).
  unfold withConfig in *. rewrite Hconn. run_prims.
  destruct (resolveSpec _ conns) as [cid'|]; cbn [usableConnectionId] in Hcid;
    [|discriminate].
  destruct (truthyString cid'); [|discriminate]. injection Hcid as ->.
  cbn [negb]. rewrite Hheaders. run_prims.
  change (authHeadersOf _) with (authHeadersOf g). rewrite Hgraph.
  eexists. split; [reflexivity | calls].
Qed.

(** *** Upload *)

(** [createFormattedMeasurements] never touches the module-level variables
    and emits at most the [lastEntry] call. *)
Lemma createFormattedMeasurements_run env g md :
  exists o evs,
    createFormattedMeasurements md env g = mkRun o g evs /\
    (evs = [] \/ evs = [NsLastEntry]).
Proof.
  destruct (allData (config g)) eqn:Hall.
  - rewrite (createFormattedMeasurements_allData _ _ _ Hall). eauto.
  - destruct (lastEntryReply env) as [lastEntry | msg] eqn:Hlast.
    + rewrite (createFormattedMeasurements_lastEntry _ _ _ _ Hall Hlast). eauto.
    + rewrite (createFormattedMeasurements_lastEntry_thrown _ _ _ _ Hall Hlast).
      eauto.
Qed.

Lemma uploadToNightScout_formatted env g md formatted evs :
  createFormattedMeasurements md env g = mkRun (Returned formatted) g evs ->
  uploadToNightScout md env g
  = mkRun (Returned tt) g (evs ++ uploadEffects env formatted).
Proof.
  intros Hfmt. unfold uploadToNightScout. run_prims. rewrite Hfmt.
  destruct formatted as [|e rest]; cbn [List.length Nat.ltb Nat.leb uploadEffects].
  - reflexivity.
  - destruct (uploadEntriesReply env (e :: rest)) as [[]|msg]; reflexivity.
Qed.

Lemma uploadToNightScout_thrown env g md msg evs :
  createFormattedMeasurements md env g = mkRun (Thrown msg) g evs ->
  uploadToNightScout md env g = mkRun (Thrown msg) g evs.
Proof.
  intros Hfmt. unfold uploadToNightScout. run_prims. now rewrite Hfmt.
Qed.

(** The upload stage never modifies the module-level variables. *)
Lemma uploadToNightScout_final env g md :
  final (uploadToNightScout md env g) = g.
Proof.
  destruct (createFormattedMeasurements_run env g md) as ([fm|msg] & evs & Hrun & _).
  - now rewrite (uploadToNightScout_formatted _ _ _ _ _ Hrun).
  - now rewrite (uploadToNightScout_thrown _ _ _ _ _ Hrun).
Qed.

(** C7: when the formatted list is empty the upload stage returns without
    calling [uploadEntries]; when it is not, [uploadEntries] is called
    exactly once, with the whole list.  Either way the stage returns
    normally. *)
Theorem uploadToNightScout_uploads_once_iff_nonempty env g md formatted :
  outcome (createFormattedMeasurements md env g) = Returned formatted ->
  let r := uploadToNightScout md env g in
  outcome r = Returned tt /\
  (formatted = [] -> filter isUpload (emitted r) = []) /\
  (formatted <> [] -> filter isUpload (emitted r) = [NsUploadEntries formatted]).
Proof.
  intros Hout r. subst r.
  destruct (createFormattedMeasurements_run env g md) as (o & evs & Hrun & Hevs).
  rewrite Hrun in Hout. cbn [outcome] in Hout. subst o.
  rewrite (uploadToNightScout_formatted _ _ _ _ _ Hrun). cbn [outcome emitted].
  split; [reflexivity|]. rewrite filter_app.
  assert (Hnone : filter isUpload evs = [])
    by (destruct Hevs as [-> | ->]; reflexivity).
  rewrite Hnone. cbn [app]. split.
  - intros ->. reflexivity.
  - intros Hne. destruct formatted as [|e rest]; [contradiction|].
    cbn [uploadEffects]. destruct (uploadEntriesReply env (e :: rest)); reflexivity.
Qed.

(** *** The cycle *)

Lemma hasValidAuthentication_run env g :
  exists b logs,
    hasValidAuthentication env g = mkRun (Returned b) g logs /\
    remoteCalls logs = [] /\
    (expires (authTicket g) = Some 0 -> 0 <= dateNow env -> b = false).
Proof.
  unfold hasValidAuthentication. run_prims.
  destruct (expires (authTicket g)) as [expiry|]; run_prims.
  - do 2 eexists. split; [reflexivity|]. split; [reflexivity|].
    intros Hzero Hnow. injection Hzero as ->. apply Z.ltb_ge.
    apply Z.div_pos; lia.
  - do 2 eexists. repeat split.
Qed.

Lemma prefixed_run {A : Type} (evs : list Event) (r : Run A) :
  match r with
  | mkRun o g2 evs' => mkRun o g2 (evs ++ evs')
  end = prefixed evs r.
Proof. now destruct r. Qed.

(** The three ways the authentication block of [main] can go: the session
    is still valid; a login was needed and failed, which ends the cycle
    with an empty session cache; a login was needed and succeeded. *)
Lemma main_cases env g :
  (exists logs,
     remoteCalls logs = [] /\
     outcome (hasValidAuthentication env g) = Returned true /\
     main env g = prefixed logs (fetchAndUpload env g))
  \/
  (exists logs,
     remoteCalls logs = [PostLogin libreLinkUpHttpHeaders] /\
     outcome (hasValidAuthentication env g) = Returned false /\
     outcome (login env (clearedSession g)) = Returned None /\
     main env g
     = mkRun (Returned tt) (clearedSession (withConfig g (envConfig env))) logs)
  \/
  (exists logs ticket g',
     remoteCalls logs = [PostLogin libreLinkUpHttpHeaders] /\
     outcome (hasValidAuthentication env g) = Returned false /\
     outcome (login env (clearedSession g)) = Returned (Some ticket) /\
     authTicket g' = ticket /\ userId g' = userId (final (login env (clearedSession g))) /\
     config g' = envConfig env /\
     main env g = prefixed logs (fetchAndUpload env g')).
Proof.
  destruct (hasValidAuthentication_run env g) as (b & vlogs & Hvalid & Hvcalls & _).
  unfold main. run_prims. rewrite Hvalid. cbn [outcome].
  destruct b; cbn [negb].
  - left. exists vlogs. split; [assumption|]. split; [reflexivity|].
    apply prefixed_run.
  - right. run_prims.
    destruct (login_run env (clearedSession g))
      as (o & g' & llogs & Hlogin & Hticket & Hconfig & Hlcalls & Huser).
    unfold clearedSession in *. rewrite Hlogin. cbn [outcome final].
    destruct o as [ticket|]; run_prims.
    + right. exists (vlogs ++ Log LvlInfo "renew token" :: llogs), ticket,
        {| authTicket := ticket; userId := userId g'; config := config g' |}.
      split; [calls|]. repeat split; try assumption.
      rewrite <- prefixed_run.
      destruct (fetchAndUpload env _) as [o2 g2 evs2].
      f_equal. cbn [app]. rewrite <- app_assoc. reflexivity.
    + left. eexists. split; [|split; [reflexivity|split; [reflexivity|]]].
      2:{ unfold withConfig. cbn [authTicket userId config].
          rewrite Hconfig. reflexivity. }
      calls.
Qed.

Lemma fetchAndUpload_cases env g :
  let h := authHeadersOf g in
  let g1 := withConfig g (envConfig env) in
  (exists msg logs,
     connectionsReply env h = RequestError msg /\
     fetchAndUpload env g = mkRun (Returned tt) (clearedSession g1) logs /\
     remoteCalls logs = [GetConnections h])
  \/
  (exists conns logs,
     connectionsReply env h = Response conns /\
     usableConnectionId (resolveSpec (linkUpConnection (envConfig env)) conns)
     = None /\
     fetchAndUpload env g = mkRun (Returned tt) g1 logs /\
     remoteCalls logs = [GetConnections h])
  \/
  (exists conns cid msg logs,
     connectionsReply env h = Response conns /\
     usableConnectionId (resolveSpec (linkUpConnection (envConfig env)) conns)
     = Some cid /\
     graphReply env cid h = RequestError msg /\
     fetchAndUpload env g = mkRun (Returned tt) (clearedSession g1) logs /\
     remoteCalls logs = [GetConnections h; GetGraph cid h])
  \/
  (exists conns cid data logs,
     connectionsReply env h = Response conns /\
     usableConnectionId (resolveSpec (linkUpConnection (envConfig env)) conns)
     = Some cid /\
     graphReply env cid h = Response data /\
     fetchAndUpload env g = prefixed logs (uploadToNightScout data env g1) /\
     remoteCalls logs = [GetConnections h; GetGraph cid h]).
Proof.
  intros h g1. subst h g1. unfold fetchAndUpload. run_prims.
  destruct (connectionsReply env (authHeadersOf g)) as [conns | msg] eqn:Hconn.
  - destruct (usableConnectionId
                (resolveSpec (linkUpConnection (envConfig env)) conns))
      as [cid|] eqn:Hcid.
    + destruct (graphReply env cid (authHeadersOf g)) as [data | msg] eqn:Hgraph.
      * right; right; right.
        destruct (getGlucoseMeasurements_fetched _ _ _ _ _ Hconn Hcid Hgraph)
          as (logs & Hrun & Hcalls).
        rewrite Hrun. exists conns, cid, data, logs.
        repeat split; try assumption. apply prefixed_run.
      * right; right; left.
        destruct (getGlucoseMeasurements_graph_failed _ _ _ _ _ Hconn Hcid Hgraph)
          as (logs & Hrun & Hcalls).
        rewrite Hrun. exists conns, cid, msg, (logs ++ []).
        repeat split; try assumption. now rewrite app_nil_r.
    + right; left.
      destruct (getGlucoseMeasurements_unresolved _ _ _ Hconn Hcid)
        as (logs & Hrun & Hcalls).
      rewrite Hrun. exists conns, (logs ++ []).
      repeat split; try assumption. now rewrite app_nil_r.
  - left.
    destruct (getGlucoseMeasurements_connections_failed _ _ _ Hconn)
      as (logs & Hrun & Hcalls).
    rewrite Hrun. exists msg, (logs ++ []).
    repeat split; try assumption. now rewrite app_nil_r.
Qed.

Lemma fetchOrUpload_is_remote ev : isFetchOrUpload ev = true -> isRemoteCall ev = true.
Proof. now destruct ev. Qed.

Lemma in_remoteCalls ev evs :
  In ev evs -> isRemoteCall ev = true -> In ev (remoteCalls evs).
Proof. intros Hin Hremote. apply filter_In. now split. Qed.

Lemma resolveSpec_unmatched configured conns cid :
  configured = Some cid -> cid <> "" -> (1 < List.length conns)%nat ->
  (forall c, In c conns -> patientId c <> cid) ->
  resolveSpec configured conns = None.
Proof.
  intros -> Hne Hlen Hnone.
  destruct conns as [|c1 [|c2 rest]]; cbn in Hlen; try lia.
  cbn [resolveSpec truthyOptString]. unfold truthyString.
  apply String.eqb_neq in Hne. rewrite Hne. cbn [negb].
  destruct (find _ (c1 :: c2 :: rest)) as [c|] eqn:Hfind; [|reflexivity].
  apply find_some in Hfind as [Hin Heq]. cbn in Heq.
  apply String.eqb_eq in Heq. now apply Hnone in Hin.
Qed.

Lemma resolveSpec_matched configured conns cid :
  configured = Some cid -> cid <> "" -> (1 < List.length conns)%nat ->
  (exists c, In c conns /\ patientId c = cid) ->
  resolveSpec configured conns = Some cid.
Proof.
  intros -> Hne Hlen (c & Hin & Hid).
  destruct conns as [|c1 [|c2 rest]]; cbn in Hlen; try lia.
  cbn [resolveSpec truthyOptString]. unfold truthyString.
  apply String.eqb_neq in Hne. rewrite Hne. cbn [negb].
  destruct (find _ (c1 :: c2 :: rest)) as [c'|] eqn:Hfind.
  - apply find_some in Hfind as [_ Heq]. cbn in Heq.
    apply String.eqb_eq in Heq. cbn. now rewrite Heq.
  - exfalso. apply (find_none _ _ Hfind) in Hin. cbn in Hin.
    rewrite Hid, String.eqb_refl in Hin. discriminate.
Qed.

(** When resolution yields no usable connection id, a cycle asks for
    nothing beyond the login and the connection list. *)
Lemma main_unresolved_calls env g conns :
  (forall headers, connectionsReply env headers = Response conns) ->
  usableConnectionId (resolveSpec (linkUpConnection (envConfig env)) conns) = None ->
  forall ev, In ev (emitted (main env g)) -> isFetchOrUpload ev = false.
Proof.
  intros Hreply Hnone ev Hin.
  destruct (isFetchOrUpload ev) eqn:Hev; [exfalso | reflexivity].
  apply in_remoteCalls in Hin; [|now apply fetchOrUpload_is_remote].
  assert (Hfetch : forall g0,
             exists logs, fetchAndUpload env g0
                          = mkRun (Returned tt) (withConfig g0 (envConfig env)) logs
                          /\ remoteCalls logs = [GetConnections (authHeadersOf g0)]).
  { intros g0.
    destruct (getGlucoseMeasurements_unresolved env g0 conns (Hreply _) Hnone)
      as (logs & Hrun & Hcalls).
    exists (logs ++ []). unfold fetchAndUpload. run_prims. rewrite Hrun.
    split; [reflexivity | now rewrite app_nil_r]. }
  destruct (main_cases env g)
    as [(logs & Hcalls & _ & Hmain)
       | [(logs & Hcalls & _ & _ & Hmain)
         | (logs & ticket & g' & Hcalls & _ & _ & _ & _ & _ & Hmain)]];
    rewrite Hmain in Hin.
  - destruct (Hfetch g) as (flogs & Hrun & Hfcalls). rewrite Hrun in Hin.
    cbn [prefixed emitted] in Hin. rewrite remoteCalls_app, Hcalls, Hfcalls in Hin.
    destruct Hin as [<- | []]. discriminate Hev.
  - cbn [emitted] in Hin. rewrite Hcalls in Hin.
    destruct Hin as [<- | []]. discriminate Hev.
  - destruct (Hfetch g') as (flogs & Hrun & Hfcalls). rewrite Hrun in Hin.
    cbn [prefixed emitted] in Hin. rewrite remoteCalls_app, Hcalls, Hfcalls in Hin.
    destruct Hin as [<- | [<- | []]]; discriminate Hev.
Qed.

(** C3: the connection resolver, on an answered connections request.  No
    connection: [null].  One connection: its patient id, whatever is
    configured.  Several and no configured id: the first one's patient id.
    Several and a configured id: that id when some connection carries it,
    and otherwise [null], in which case the cycle performs neither the graph
    fetch nor any call to Nightscout. *)
Theorem getLibreLinkUpConnection_policy env conns :
  (forall headers, connectionsReply env headers = Response conns) ->
  let configured := linkUpConnection (envConfig env) in
  let resolved := fun g => outcome (getLibreLinkUpConnection env g) in
  (conns = [] -> forall g, resolved g = Returned None) /\
  (forall only, conns = [only] ->
     forall g, resolved g = Returned (Some (patientId only))) /\
  (forall first second rest, conns = first :: second :: rest ->
     configured = None \/ configured = Some "" ->
     forall g, resolved g = Returned (Some (patientId first))) /\
  (forall cid, (1 < List.length conns)%nat -> configured = Some cid -> cid <> "" ->
     ((exists c, In c conns /\ patientId c = cid) ->
      forall g, resolved g = Returned (Some cid)) /\
     ((forall c, In c conns -> patientId c <> cid) ->
      (forall g, resolved g = Returned None) /\
      (forall g ev, In ev (emitted (main env g)) -> isFetchOrUpload ev = false))).
Proof.
  intros Hreply configured resolved.
  assert (Hres : forall g,
             resolved g = Returned (resolveSpec configured conns)).
  { intros g. subst resolved. cbn beta.
    destruct (getLibreLinkUpConnection_answered env g conns (Hreply _))
      as (logs & Hrun & _).
    now rewrite Hrun. }
  split; [|split; [|split]].
  - intros -> g. now rewrite Hres.
  - intros only -> g. now rewrite Hres.
  - intros first second rest -> Hnoid g. rewrite Hres. cbn [resolveSpec].
    destruct Hnoid as [-> | ->]; reflexivity.
  - intros cid Hlen Hcfg Hne. split.
    + intros Hex g. rewrite Hres.
      now rewrite (resolveSpec_matched configured conns cid).
    + intros Hnone.
      assert (Hspec : resolveSpec configured conns = None)
        by now apply (resolveSpec_unmatched configured conns cid).
      split.
      * intros g. now rewrite Hres, Hspec.
      * intros g. apply (main_unresolved_calls env g conns Hreply).
        fold configured. now rewrite Hspec.
Qed.

(** The outcome of [login] is decided by the reply alone. *)
Lemma login_outcome_independent env g g' :
  outcome (login env g) = outcome (login env g').
Proof.
  unfold login. run_prims.
  destruct (loginReply env) as [resp | msg]; run_prims; [|reflexivity].
  destruct (negb (status resp =? 0)); run_prims; [reflexivity|].
  destruct (strictEqTrue (redirect (loginData resp))
            && truthyOptString (region (loginData resp))); reflexivity.
Qed.

Lemma requestFailed_is_remote env ev : requestFailed env ev -> isRemoteCall ev = true.
Proof. destruct ev; cbn; try reflexivity; intros []. Qed.

Lemma upload_requests_never_fail env g md ev :
  In ev (emitted (uploadToNightScout md env g)) -> ~ requestFailed env ev.
Proof.
  intros Hin Hfail.
  destruct (createFormattedMeasurements_run env g md)
    as ([fm|msg] & evs & Hrun & Hevs).
  - rewrite (uploadToNightScout_formatted _ _ _ _ _ Hrun) in Hin.
    cbn [emitted] in Hin. apply in_app_or in Hin as [Hin | Hin].
    + destruct Hevs as [-> | ->]; [destruct Hin|].
      destruct Hin as [<- | []]. exact Hfail.
    + destruct fm as [|e rest]; cbn [uploadEffects] in Hin.
      * destruct Hin as [<- | []]. exact Hfail.
      * destruct Hin as [<- | [<- | [<- | []]]]; try exact Hfail.
        destruct (uploadEntriesReply env (e :: rest)); exact Hfail.
  - rewrite (uploadToNightScout_thrown _ _ _ _ _ Hrun) in Hin.
    cbn [emitted] in Hin.
    destruct Hevs as [-> | ->]; [destruct Hin|].
    destruct Hin as [<- | []]. exact Hfail.
Qed.

(** In the authenticated part of a cycle, a failed request is the last
    remote call, it was made once, and the session cache is cleared. *)
Lemma fetchAndUpload_request_failed env g ev :
  In ev (emitted (fetchAndUpload env g)) -> requestFailed env ev ->
  outcome (fetchAndUpload env g) = Returned tt /\
  final (fetchAndUpload env g) = clearedSession (withConfig g (envConfig env)) /\
  exists before,
    remoteCalls (emitted (fetchAndUpload env g)) = before ++ [ev] /\
    ~ In ev before /\
    (before = [] \/ exists headers, before = [GetConnections headers]).
Proof.
  intros Hin Hfail.
  pose proof (requestFailed_is_remote env ev Hfail) as Hremote.
  destruct (fetchAndUpload_cases env g)
    as [(msg & logs & Hconn & Hrun & Hcalls)
       | [(conns & logs & Hconn & Hcid & Hrun & Hcalls)
         | [(conns & cid & msg & logs & Hconn & Hcid & Hgraph & Hrun & Hcalls)
           | (conns & cid & data & logs & Hconn & Hcid & Hgraph & Hrun & Hcalls)]]];
    rewrite Hrun in *; cbn [prefixed outcome final emitted] in *.
  - apply (in_remoteCalls _ _ Hin) in Hremote. rewrite Hcalls in *.
    destruct Hremote as [<- | []].
    repeat split. exists []. repeat split; auto.
  - apply (in_remoteCalls _ _ Hin) in Hremote. rewrite Hcalls in *.
    destruct Hremote as [<- | []]. destruct Hfail as [msg Hfail]. congruence.
  - apply (in_remoteCalls _ _ Hin) in Hremote. rewrite Hcalls in *.
    destruct Hremote as [<- | [<- | []]].
    + destruct Hfail as [msg' Hfail]. congruence.
    + repeat split. exists [GetConnections (authHeadersOf g)].
      repeat split; eauto. intros [Heq | []]. discriminate Heq.
  - exfalso. apply in_app_or in Hin as [Hin | Hin].
    + apply (in_remoteCalls _ _ Hin) in Hremote. rewrite Hcalls in *.
      destruct Hremote as [<- | [<- | []]]; destruct Hfail as [msg' Hfail];
        congruence.
    + exact (upload_requests_never_fail _ _ _ _ Hin Hfail).
Qed.

(** The same for a whole cycle. *)
Lemma main_request_failed env g ev :
  In ev (emitted (main env g)) -> requestFailed env ev ->
  outcome (main env g) = Returned tt /\
  final (main env g)
  = {| authTicket := emptyAuthTicket; userId := ""; config := envConfig env |} /\
  exists before,
    remoteCalls (emitted (main env g)) = before ++ [ev] /\ ~ In ev before.
Proof.
  intros Hin Hfail.
  pose proof (requestFailed_is_remote env ev Hfail) as Hremote.
  destruct (main_cases env g)
    as [(logs & Hcalls & _ & Hmain)
       | [(logs & Hcalls & _ & _ & Hmain)
         | (logs & ticket & g' & Hcalls & _ & _ & _ & _ & Hcfg & Hmain)]];
    rewrite Hmain in *; cbn [prefixed outcome final emitted] in *.
  - apply in_app_or in Hin as [Hin | Hin].
    { apply (in_remoteCalls _ _ Hin) in Hremote. rewrite Hcalls in Hremote.
      destruct Hremote. }
    destruct (fetchAndUpload_request_failed env g ev Hin Hfail)
      as (Hout & Hfinal & before & Hrc & Hnotin & _).
    rewrite Hout, Hfinal. repeat split.
    exists before. rewrite remoteCalls_app, Hcalls, Hrc. now split.
  - apply (in_remoteCalls _ _ Hin) in Hremote. rewrite Hcalls in Hremote.
    destruct Hremote as [<- | []]. destruct Hfail.
  - apply in_app_or in Hin as [Hin | Hin].
    { apply (in_remoteCalls _ _ Hin) in Hremote. rewrite Hcalls in Hremote.
      destruct Hremote as [<- | []]. destruct Hfail. }
    destruct (fetchAndUpload_request_failed env g' ev Hin Hfail)
      as (Hout & Hfinal & before & Hrc & Hnotin & _).
    rewrite Hout, Hfinal. repeat split.
    exists (PostLogin libreLinkUpHttpHeaders :: before).
    rewrite remoteCalls_app, Hcalls, Hrc. split; [reflexivity|].
    intros [Heq | Hb]; [|contradiction]. subst ev. destruct Hfail.
Qed.

Lemma hasValidAuthentication_empty env g :
  authTicket g = emptyAuthTicket -> 0 <= dateNow env ->
  outcome (hasValidAuthentication env g) = Returned false.
Proof.
  intros Hempty Hnow.
  destruct (hasValidAuthentication_run env g) as (b & logs & Hrun & _ & Hb).
  rewrite Hrun. cbn [outcome]. f_equal. apply Hb; [|assumption].
  now rewrite Hempty.
Qed.

(** The session survives a cycle whose authenticated part left the
    module-level variables alone. *)
Lemma keepsAuthenticatedSession_intro env g :
  (forall logs g0,
     (forall ev, In ev (remoteCalls logs) -> ev = PostLogin libreLinkUpHttpHeaders) ->
     main env g = prefixed logs (fetchAndUpload env g0) ->
     final (fetchAndUpload env g0) = withConfig g0 (envConfig env)) ->
  keepsAuthenticatedSession env g (main env g).
Proof.
  intros Hkeep. unfold keepsAuthenticatedSession.
  rewrite (login_outcome_independent env g (clearedSession g)).
  destruct (main_cases env g)
    as [(logs & Hcalls & Hvalid & Hmain)
       | [(logs & _ & Hvalid & Hlogin & Hmain)
         | (logs & ticket & g' & Hcalls & Hvalid & Hlogin & Hticket & Huser & _ & Hmain)]].
  - assert (Hfinal := Hkeep logs g). rewrite Hcalls in Hfinal.
    specialize (Hfinal (fun ev (Hin : In ev []) => match Hin with end) Hmain).
    rewrite Hmain. cbn [prefixed final]. rewrite Hfinal.
    split; [now split | intros; congruence].
  - split; intros; congruence.
  - assert (Hfinal := Hkeep logs g'). rewrite Hcalls in Hfinal.
    assert (Honly : forall ev,
               In ev [PostLogin libreLinkUpHttpHeaders] ->
               ev = PostLogin libreLinkUpHttpHeaders)
      by (intros ev [<- | []]; reflexivity).
    specialize (Hfinal Honly Hmain).
    rewrite Hmain. cbn [prefixed final]. rewrite Hfinal.
    split; [intros; congruence|].
    intros ticket' _ Hlogin'. rewrite Hlogin in Hlogin'.
    injection Hlogin' as <-. cbn [withConfig authTicket userId]. now split.
Qed.

(** C4, as the code has it: in a cycle that reached the authenticated
    state, a failed connections or graph request clears the session cache
    (ticket and account id are reset to empty, so the next cycle starts
    unauthenticated), and the failed request is the last remote call of the
    cycle and was made once (no retry).  Resolution that returns [null] on
    an answered connections request (no connection, or no match for the
    configured id) ends the cycle with the session the cycle authenticated
    with. *)
Theorem request_failure_clears_session env g :
  let r := main env g in
  (fetchFailed env r ->
   outcome r = Returned tt /\
   authTicket (final r) = emptyAuthTicket /\
   userId (final r) = "" /\
   (forall next, 0 <= dateNow next ->
      outcome (hasValidAuthentication next (final r)) = Returned false) /\
   (exists before failed,
      remoteCalls (emitted r) = before ++ [failed] /\
      requestFailed env failed /\ ~ In failed before)) /\
  (forall conns,
     (forall headers, connectionsReply env headers = Response conns) ->
     outcome (getLibreLinkUpConnection env g) = Returned None ->
     outcome r = Returned tt /\ keepsAuthenticatedSession env g r).
Proof.
  intros r. subst r. split.
  - intros (ev & Hin & Hfail).
    destruct (main_request_failed env g ev Hin Hfail)
      as (Hout & Hfinal & before & Hrc & Hnotin).
    rewrite Hout, Hfinal. cbn [authTicket userId]. repeat split.
    + intros next Hnow. now apply hasValidAuthentication_empty.
    + exists before, ev. now repeat split.
  - intros conns Hreply Hnull.
    assert (Hnone : resolveSpec (linkUpConnection (envConfig env)) conns = None).
    { destruct (getLibreLinkUpConnection_answered env g conns (Hreply _))
        as (logs & Hrun & _).
      rewrite Hrun in Hnull. cbn [outcome] in Hnull. now injection Hnull. }
    assert (Hfetch : forall g0,
               outcome (fetchAndUpload env g0) = Returned tt /\
               final (fetchAndUpload env g0) = withConfig g0 (envConfig env)).
    { intros g0.
      assert (Hcid : usableConnectionId
                       (resolveSpec (linkUpConnection (envConfig env)) conns)
                     = None) by now rewrite Hnone.
      destruct (getGlucoseMeasurements_unresolved env g0 conns (Hreply _) Hcid)
        as (logs & Hrun & _).
      unfold fetchAndUpload. run_prims. now rewrite Hrun. }
    split.
    + destruct (main_cases env g)
        as [(logs & _ & _ & Hmain)
           | [(logs & _ & _ & _ & Hmain)
             | (logs & ticket & g' & _ & _ & _ & _ & _ & _ & Hmain)]];
        rewrite Hmain; cbn [prefixed outcome]; try reflexivity; apply Hfetch.
    + apply keepsAuthenticatedSession_intro. intros logs g0 _ _. apply Hfetch.
Qed.

(** An upload in the authenticated part of a cycle means the fetch went
    through, and the part then returns normally with the module-level
    variables as the fetch left them. *)
Lemma fetchAndUpload_uploaded env g formatted :
  In (NsUploadEntries formatted) (emitted (fetchAndUpload env g)) ->
  outcome (fetchAndUpload env g) = Returned tt /\
  final (fetchAndUpload env g) = withConfig g (envConfig env).
Proof.
  intros Hin.
  assert (Hnot : forall logs calls,
             remoteCalls logs = calls ->
             In (NsUploadEntries formatted) logs ->
             In (NsUploadEntries formatted) calls).
  { intros logs calls <- Hlogs. now apply in_remoteCalls. }
  destruct (fetchAndUpload_cases env g)
    as [(msg & logs & _ & Hrun & Hcalls)
       | [(conns & logs & _ & _ & Hrun & Hcalls)
         | [(conns & cid & msg & logs & _ & _ & _ & Hrun & Hcalls)
           | (conns & cid & data & logs & _ & _ & _ & Hrun & Hcalls)]]];
    rewrite Hrun in *; cbn [prefixed outcome final emitted] in *.
  - apply (Hnot _ _ Hcalls) in Hin. destruct Hin as [Heq | []]. discriminate Heq.
  - apply (Hnot _ _ Hcalls) in Hin. destruct Hin as [Heq | []]. discriminate Heq.
  - apply (Hnot _ _ Hcalls) in Hin.
    destruct Hin as [Heq | [Heq | []]]; discriminate Heq.
  - rewrite uploadToNightScout_final. split; [|reflexivity].
    apply in_app_or in Hin as [Hin | Hin].
    { apply (Hnot _ _ Hcalls) in Hin.
      destruct Hin as [Heq | [Heq | []]]; discriminate Heq. }
    destruct (createFormattedMeasurements_run env
                (withConfig g (envConfig env)) data)
      as ([fm|msg] & evs & Hfmt & Hevs).
    + now rewrite (uploadToNightScout_formatted _ _ _ _ _ Hfmt).
    + rewrite (uploadToNightScout_thrown _ _ _ _ _ Hfmt) in Hin.
      cbn [emitted] in Hin.
      destruct Hevs as [-> | ->]; [destruct Hin|].
      destruct Hin as [Heq | []]. discriminate Heq.
Qed.

(** C8: when [uploadEntries] fails, [uploadToNightScout] catches the error
    and logs it: the stage returns normally, its last effect is the error
    log line, and the module-level variables, the auth ticket and account
    id among them, are what they were before the stage.  A cycle in which
    the upload fails therefore ends normally with the session it
    authenticated with. *)
Theorem upload_failure_keeps_session env g :
  (forall md formatted msg,
     outcome (createFormattedMeasurements md env g) = Returned formatted ->
     formatted <> [] ->
     uploadEntriesReply env formatted = Thrown msg ->
     let r := uploadToNightScout md env g in
     outcome r = Returned tt /\
     final r = g /\
     exists before,
       emitted r = before ++ [NsUploadEntries formatted;
                              Log LvlError "Upload to NightScout failed"]) /\
  (forall formatted msg,
     In (NsUploadEntries formatted) (emitted (main env g)) ->
     uploadEntriesReply env formatted = Thrown msg ->
     outcome (main env g) = Returned tt /\
     keepsAuthenticatedSession env g (main env g)).
Proof.
  split.
  - intros md formatted msg Hout Hne Hfail r. subst r.
    destruct (createFormattedMeasurements_run env g md) as (o & evs & Hrun & Hevs).
    rewrite Hrun in Hout. cbn [outcome] in Hout. subst o.
    rewrite (uploadToNightScout_formatted _ _ _ _ _ Hrun).
    cbn [outcome final emitted]. repeat split.
    destruct formatted as [|e rest]; [contradiction|].
    cbn [uploadEffects]. rewrite Hfail.
    exists (evs ++ [Log LvlInfo "Uploading entries to Nightscout..."]).
    now rewrite <- app_assoc.
  - intros formatted msg Hin _.
    assert (Hfetch : forall logs g0,
               (forall ev, In ev (remoteCalls logs) ->
                           ev = PostLogin libreLinkUpHttpHeaders) ->
               main env g = prefixed logs (fetchAndUpload env g0) ->
               outcome (fetchAndUpload env g0) = Returned tt /\
               final (fetchAndUpload env g0) = withConfig g0 (envConfig env)).
    { intros logs g0 Honly Hmain. rewrite Hmain in Hin.
      cbn [prefixed emitted] in Hin. apply in_app_or in Hin as [Hin | Hin].
      - apply in_remoteCalls with (evs := logs) in Hin; [|reflexivity].
        apply Honly in Hin. discriminate Hin.
      - now apply (fetchAndUpload_uploaded env g0 formatted). }
    split.
    + assert (Honly : forall ev,
                 In ev [PostLogin libreLinkUpHttpHeaders] ->
                 ev = PostLogin libreLinkUpHttpHeaders)
        by (intros ev [<- | []]; reflexivity).
      destruct (main_cases env g)
        as [(logs & Hcalls & _ & Hmain)
           | [(logs & Hcalls & _ & _ & Hmain)
             | (logs & ticket & g' & Hcalls & _ & _ & _ & _ & _ & Hmain)]].
      * rewrite Hmain. cbn [prefixed outcome]. apply (Hfetch logs g); [|assumption].
        rewrite Hcalls. intros ev [].
      * now rewrite Hmain.
      * rewrite Hmain. cbn [prefixed outcome]. apply (Hfetch logs g'); [|assumption].
        now rewrite Hcalls.
    + apply keepsAuthenticatedSession_intro. intros logs g0 Honly Hmain.
      now apply (Hfetch logs g0 Honly Hmain).
Qed.

(** A cycle that starts with an empty session cache logs in first, and
    makes no other remote call unless that login succeeds. *)
Lemma main_from_empty next g0 :
  authTicket g0 = emptyAuthTicket -> 0 <= dateNow next ->
  exists rest,
    remoteCalls (emitted (main next g0)) = PostLogin libreLinkUpHttpHeaders :: rest /\
    (outcome (login next g0) = Returned None ->
     rest = [] /\
     authTicket (final (main next g0)) = emptyAuthTicket /\
     userId (final (main next g0)) = "") /\
    (forall ev, In ev rest ->
       exists ticket, outcome (login next g0) = Returned (Some ticket)).
Proof.
  intros Hempty Hnow.
  pose proof (hasValidAuthentication_empty next g0 Hempty Hnow) as Hinvalid.
  rewrite (login_outcome_independent next g0 (clearedSession g0)).
  destruct (main_cases next g0)
    as [(logs & _ & Hvalid & _)
       | [(logs & Hcalls & _ & Hlogin & Hmain)
         | (logs & ticket & g' & Hcalls & _ & Hlogin & _ & _ & _ & Hmain)]].
  - congruence.
  - rewrite Hmain. cbn [emitted final]. exists []. rewrite Hcalls.
    split; [reflexivity|]. split.
    + intros _. repeat split.
    + intros ev [].
  - rewrite Hmain. cbn [prefixed emitted].
    exists (remoteCalls (emitted (fetchAndUpload next g'))).
    rewrite remoteCalls_app, Hcalls. split; [reflexivity|]. split.
    + intros Hnone. congruence.
    + intros ev _. now exists ticket.
Qed.

(** Catching what escapes [main] changes neither the module-level
    variables nor the remote calls. *)
Lemma cronTick_main env g :
  final (cronTick env g) = final (main env g) /\
  remoteCalls (emitted (cronTick env g)) = remoteCalls (emitted (main env g)).
Proof.
  unfold cronTick. run_prims.
  destruct (main env g) as [[[]|msg] g' evs]; cbn [final emitted].
  - now split.
  - split; [reflexivity|]. rewrite remoteCalls_app. cbn. apply app_nil_r.
Qed.

Lemma runCycles_failed_logins envs :
  forall g0,
    authTicket g0 = emptyAuthTicket ->
    (forall next, In next envs ->
       0 <= dateNow next /\ outcome (login next g0) = Returned None) ->
    remoteCalls (fst (runCycles envs g0))
    = repeat (PostLogin libreLinkUpHttpHeaders) (List.length envs) /\
    authTicket (snd (runCycles envs g0)) = emptyAuthTicket.
Proof.
  induction envs as [|next later IH]; intros g0 Hempty Hall.
  - now split.
  - destruct (Hall next (or_introl eq_refl)) as [Hnow Hlogin].
    destruct (main_from_empty next g0 Hempty Hnow) as (rest & Hcalls & Hfail & _).
    destruct (Hfail Hlogin) as (-> & Hticket & _).
    destruct (cronTick_main next g0) as [Hfinal Htick].
    cbn [runCycles]. rewrite <- Hfinal in Hticket. rewrite <- Htick in Hcalls.
    destruct (runCycles later (final (cronTick next g0))) as [evs g'] eqn:Hlater.
    destruct (IH (final (cronTick next g0)) Hticket) as [IHcalls IHticket].
    { intros e He. destruct (Hall e (or_intror He)) as [Hnow' Hlogin'].
      split; [assumption|].
      now rewrite (login_outcome_independent e _ g0). }
    rewrite Hlater in IHcalls, IHticket. cbn [fst snd] in *.
    rewrite remoteCalls_app, Hcalls, IHcalls. now split.
Qed.

(** C5: a cycle that ends with an authentication failure or a fetch failure
    leaves the session cache empty (token [""], expiry [0], no account id).
    The validity check then fails at every time from the epoch on, so the
    next cycle's first remote call is the login request; that cycle makes
    another remote call only if its login returned a ticket; and over any
    number of following ticks of the schedule whose logins all fail, login
    requests are the only remote calls. *)
Theorem failure_forces_fresh_login env g :
  let r := main env g in
  authenticationFailed env g \/ fetchFailed env r ->
  token (authTicket (final r)) = "" /\
  expires (authTicket (final r)) = Some 0 /\
  userId (final r) = "" /\
  (forall next, 0 <= dateNow next ->
     let r' := main next (final r) in
     outcome (hasValidAuthentication next (final r)) = Returned false /\
     exists rest,
       remoteCalls (emitted r') = PostLogin libreLinkUpHttpHeaders :: rest /\
       (outcome (login next (final r)) = Returned None ->
        rest = [] /\
        authTicket (final r') = emptyAuthTicket /\ userId (final r') = "") /\
       (forall ev, In ev rest ->
          exists ticket, outcome (login next (final r)) = Returned (Some ticket))) /\
  (forall envs,
     (forall next, In next envs ->
        0 <= dateNow next /\ outcome (login next (final r)) = Returned None) ->
     remoteCalls (fst (runCycles envs (final r)))
     = repeat (PostLogin libreLinkUpHttpHeaders) (List.length envs)).
Proof.
  intros r Hfailure. subst r.
  assert (Hcleared : authTicket (final (main env g)) = emptyAuthTicket /\
                     userId (final (main env g)) = "").
  { destruct Hfailure as [[Hinvalid Hlogin] | (ev & Hin & Hfail)].
    - rewrite (login_outcome_independent env g (clearedSession g)) in Hlogin.
      destruct (main_cases env g)
        as [(logs & _ & Hvalid & _)
           | [(logs & _ & _ & _ & Hmain)
             | (logs & ticket & g' & _ & _ & Hlogin' & _)]];
        try congruence.
      rewrite Hmain. now split.
    - destruct (main_request_failed env g ev Hin Hfail) as (_ & Hfinal & _).
      rewrite Hfinal. now split. }
  destruct Hcleared as [Hticket Huser]. rewrite Hticket.
  repeat split; try assumption.
  - now apply hasValidAuthentication_empty.
  - now apply main_from_empty.
  - intros envs Hall. now apply runCycles_failed_logins.
Qed.

(** *** Summaries *)

Lemma remoteCalls_uploadEffects env formatted :
  remoteCalls (uploadEffects env formatted) = uploadCalls formatted.
Proof.
  destruct formatted as [|e rest]; [reflexivity|].
  cbn [uploadEffects uploadCalls].
  destruct (uploadEntriesReply env (e :: rest)); reflexivity.
Qed.

Lemma uploadToNightScout_summary env g md :
  let s := uploadSummary env (allData (config g)) md in
  outcome (uploadToNightScout md env g) = sOutcome s /\
  final (uploadToNightScout md env g) = g /\
  remoteCalls (emitted (uploadToNightScout md env g)) = sCalls s.
Proof.
  cbn zeta. unfold uploadSummary.
  destruct (allData (config g)) eqn:Hall.
  - rewrite (uploadToNightScout_formatted _ _ _ _ _
               (createFormattedMeasurements_allData _ _ _ Hall)).
    cbn [outcome final emitted sOutcome sCalls app].
    now rewrite remoteCalls_uploadEffects.
  - destruct (lastEntryReply env) as [last | msg] eqn:Hlast.
    + rewrite (uploadToNightScout_formatted _ _ _ _ _
                 (createFormattedMeasurements_lastEntry _ _ _ _ Hall Hlast)).
      cbn [outcome final emitted sOutcome sCalls app].
      rewrite remoteCalls_cons. cbn [isRemoteCall].
      now rewrite remoteCalls_uploadEffects.
    + rewrite (uploadToNightScout_thrown _ _ _ _ _
                 (createFormattedMeasurements_lastEntry_thrown _ _ _ _ Hall Hlast)).
      now cbn.
Qed.

Lemma fetchAndUpload_summary env g :
  outcome (fetchAndUpload env g) = sOutcome (fetchSummary env g) /\
  final (fetchAndUpload env g) = summaryFinal env g (fetchSummary env g) /\
  remoteCalls (emitted (fetchAndUpload env g)) = sCalls (fetchSummary env g).
Proof.
  unfold fetchSummary, summaryFinal.
  destruct (fetchAndUpload_cases env g)
    as [(msg & logs & Hconn & Hrun & Hcalls)
       | [(conns & logs & Hconn & Hcid & Hrun & Hcalls)
         | [(conns & cid & msg & logs & Hconn & Hcid & Hgraph & Hrun & Hcalls)
           | (conns & cid & data & logs & Hconn & Hcid & Hgraph & Hrun & Hcalls)]]];
    rewrite Hrun, Hconn; cbn [prefixed outcome final emitted];
    rewrite ?Hcid, ?Hgraph; cbn [sOutcome sCleared sCalls]; try now repeat split.
  destruct (uploadToNightScout_summary env (withConfig g (envConfig env)) data)
    as (Hout & Hfinal & Hup).
  cbn [withConfig config] in Hout, Hup.
  rewrite Hout, Hfinal, remoteCalls_app, Hcalls, Hup. now repeat split.
Qed.

(** A whole cycle: the authentication block, then the summary of the
    authenticated part from the module-level variables [g0] it starts
    with. *)
Lemma main_summary env g :
  (outcome (hasValidAuthentication env g) = Returned false /\
   outcome (login env g) = Returned None /\
   outcome (main env g) = Returned tt /\
   final (main env g) = clearedSession (withConfig g (envConfig env)) /\
   remoteCalls (emitted (main env g)) = [PostLogin libreLinkUpHttpHeaders])
  \/
  (exists pre g0,
     ((pre = [] /\ g0 = g /\
       outcome (hasValidAuthentication env g) = Returned true)
      \/
      (pre = [PostLogin libreLinkUpHttpHeaders] /\
       outcome (hasValidAuthentication env g) = Returned false /\
       outcome (login env g) = Returned (Some (authTicket g0)) /\
       userId g0 = userId (final (login env (clearedSession g))) /\
       config g0 = envConfig env)) /\
     outcome (main env g) = sOutcome (fetchSummary env g0) /\
     final (main env g) = summaryFinal env g0 (fetchSummary env g0) /\
     remoteCalls (emitted (main env g)) = pre ++ sCalls (fetchSummary env g0)).
Proof.
  rewrite (login_outcome_independent env g (clearedSession g)).
  destruct (main_cases env g)
    as [(logs & Hcalls & Hvalid & Hmain)
       | [(logs & Hcalls & Hvalid & Hlogin & Hmain)
         | (logs & ticket & g' & Hcalls & Hvalid & Hlogin & Hticket & Huser & Hcfg
            & Hmain)]].
  - right. exists [], g.
    destruct (fetchAndUpload_summary env g) as (Hout & Hfinal & Hfetch).
    rewrite Hmain. cbn [prefixed outcome final emitted].
    rewrite remoteCalls_app, Hcalls, Hout, Hfinal, Hfetch.
    split; [left; now repeat split | now repeat split].
  - left. rewrite Hmain. now repeat split.
  - right. exists [PostLogin libreLinkUpHttpHeaders], g'.
    destruct (fetchAndUpload_summary env g') as (Hout & Hfinal & Hfetch).
    rewrite Hmain. cbn [prefixed outcome final emitted].
    rewrite remoteCalls_app, Hcalls, Hout, Hfinal, Hfetch, Hticket.
    split; [right; now repeat split | now repeat split].
Qed.

Lemma usableConnectionId_nonempty resolved cid :
  usableConnectionId resolved = Some cid -> cid <> "".
Proof.
  destruct resolved as [c|]; cbn; [|discriminate].
  destruct (truthyString c) eqn:Htruthy; [|discriminate].
  intros Heq. injection Heq as <-. intros ->. discriminate Htruthy.
Qed.

(** Splits membership in an explicit list of effects into its cases. *)
Ltac in_cases :=
  repeat match goal with
         | Hin : In _ (_ :: _) |- _ => destruct Hin as [Hin | Hin]
         | Hin : In _ [] |- _ => destruct Hin
         | Heq : @eq Event _ _ |- _ =>
             first [discriminate Heq | injection Heq as ?; subst]
         end.

Lemma fetchSummary_order env g :
  let calls := sCalls (fetchSummary env g) in
  (exists later, calls = GetConnections (authHeadersOf g) :: later) /\
  increasing (map stage calls) = true /\
  (forall cid h, In (GetGraph cid h) calls ->
     cid <> "" /\ h = authHeadersOf g) /\
  (forall h, In (GetConnections h) calls -> h = authHeadersOf g) /\
  (In NsLastEntry calls -> exists cid h, In (GetGraph cid h) calls) /\
  (forall fm, In (NsUploadEntries fm) calls ->
     fm <> [] /\ exists cid h, In (GetGraph cid h) calls) /\
  ~ In (PostLogin libreLinkUpHttpHeaders) calls.
Proof.
  cbn zeta. unfold fetchSummary, uploadSummary.
  destruct (connectionsReply env (authHeadersOf g)) as [conns | msg];
    [destruct (usableConnectionId _) as [cid|] eqn:Hcid;
       [pose proof (usableConnectionId_nonempty _ _ Hcid) as Hne;
        destruct (graphReply env cid (authHeadersOf g)) as [data | msg];
          [destruct (allData (envConfig env));
             [destruct (formatSpec None data) as [|e rest] eqn:Hfmt
             | destruct (lastEntryReply env) as [last | msg];
                 [destruct (formatSpec last data) as [|e rest] eqn:Hfmt|]]|]|]|];
    cbn [sCalls sOutcome uploadCalls];
    (split; [eexists; reflexivity|]);
    (split; [reflexivity|]);
    repeat split; unfold not; intros; in_cases; try (now repeat split);
      try discriminate; try congruence; try (do 2 eexists; cbn; eauto 6).
Qed.


Lemma in_remoteCalls_iff ev evs :
  In ev (remoteCalls evs) <-> In ev evs /\ isRemoteCall ev = true.
Proof. apply filter_In. Qed.

Lemma fetchSummary_thrown env g msg :
  sOutcome (fetchSummary env g) = Thrown msg <->
  In NsLastEntry (sCalls (fetchSummary env g)) /\ lastEntryReply env = Thrown msg.
Proof.
  unfold fetchSummary, uploadSummary.
  destruct (connectionsReply env (authHeadersOf g)) as [conns | msg'];
    [destruct (usableConnectionId _) as [cid|];
       [destruct (graphReply env cid (authHeadersOf g)) as [data | msg'];
          [destruct (allData (envConfig env));
             [destruct (formatSpec None data) as [|e rest]
             | destruct (lastEntryReply env) as [last | msg'];
                 [destruct (formatSpec last data) as [|e rest]|]]|]|]|];
    cbn [sCalls sOutcome uploadCalls]; split;
    try (intros Heq; discriminate Heq);
    try (intros [Hin Heq]; in_cases; discriminate Heq).
  - intros Heq. injection Heq as ->. split; [cbn; auto | reflexivity].
  - intros [_ Heq]. injection Heq as ->. reflexivity.
Qed.

Lemma fetchSummary_thrown_effects env g msg :
  sOutcome (fetchSummary env g) = Thrown msg ->
  sCleared (fetchSummary env g) = false /\
  forall fm, ~ In (NsUploadEntries fm) (sCalls (fetchSummary env g)).
Proof.
  unfold fetchSummary, uploadSummary.
  destruct (connectionsReply env (authHeadersOf g)) as [conns | msg'];
    [destruct (usableConnectionId _) as [cid|];
       [destruct (graphReply env cid (authHeadersOf g)) as [data | msg'];
          [destruct (allData (envConfig env));
             [destruct (formatSpec None data) as [|e rest]
             | destruct (lastEntryReply env) as [last | msg'];
                 [destruct (formatSpec last data) as [|e rest]|]]|]|]|];
    cbn [sCalls sOutcome sCleared uploadCalls]; intros Heq;
    try discriminate Heq.
  split; [reflexivity|]. intros fm Hin. in_cases.
Qed.

Lemma fetchSummary_cleared env g :
  sCleared (fetchSummary env g) = true ->
  exists ev, In ev (sCalls (fetchSummary env g)) /\ requestFailed env ev.
Proof.
  unfold fetchSummary, uploadSummary.
  destruct (connectionsReply env (authHeadersOf g)) as [conns | msg'] eqn:Hconn;
    [destruct (usableConnectionId _) as [cid|];
       [destruct (graphReply env cid (authHeadersOf g)) as [data | msg'] eqn:Hgraph;
          [destruct (allData (envConfig env));
             [| destruct (lastEntryReply env) as [last | msg']]|]|]|];
    cbn [sCalls sOutcome sCleared]; intros Heq; try discriminate Heq.
  - exists (GetGraph cid (authHeadersOf g)). split; [cbn; auto|].
    cbn. now exists msg'.
  - exists (GetConnections (authHeadersOf g)). split; [cbn; auto|].
    cbn. now exists msg'.
Qed.

(** The authenticated session survives a cycle whose authenticated part
    did not clear it. *)
Lemma keepsAuthenticatedSession_of_summary env g pre g0 :
  (pre = [] /\ g0 = g /\
   outcome (hasValidAuthentication env g) = Returned true)
  \/
  (pre = [PostLogin libreLinkUpHttpHeaders] /\
   outcome (hasValidAuthentication env g) = Returned false /\
   outcome (login env g) = Returned (Some (authTicket g0)) /\
   userId g0 = userId (final (login env (clearedSession g))) /\
   config g0 = envConfig env) ->
  final (main env g) = withConfig g0 (envConfig env) ->
  keepsAuthenticatedSession env g (main env g).
Proof.
  intros Hpre Hfinal. unfold keepsAuthenticatedSession. rewrite Hfinal.
  cbn [withConfig authTicket userId].
  destruct Hpre as [(_ & -> & Hvalid) | (_ & Hvalid & Hlogin & Huser & _)].
  - split; [now split | intros; congruence].
  - split; [intros; congruence|].
    intros ticket _ Hlogin'. rewrite Hlogin in Hlogin'.
    injection Hlogin' as <-. now split.
Qed.

(** X2: an exception escapes [main] exactly when the cycle called
    [lastEntry] and that call failed; the exception is that failure's.  The
    cycle then uploads nothing and keeps the session it authenticated
    with. *)
Theorem main_throws_iff_lastEntry_throws env g msg :
  (outcome (main env g) = Thrown msg <->
   In NsLastEntry (emitted (main env g)) /\ lastEntryReply env = Thrown msg) /\
  (outcome (main env g) = Thrown msg ->
   (forall fm, ~ In (NsUploadEntries fm) (emitted (main env g))) /\
   keepsAuthenticatedSession env g (main env g)).
Proof.
  assert (Hlast : In NsLastEntry (emitted (main env g))
                  <-> In NsLastEntry (remoteCalls (emitted (main env g)))).
  { rewrite in_remoteCalls_iff. intuition. }
  destruct (main_summary env g)
    as [(_ & _ & Hout & _ & Hcalls) | (pre & g0 & Hpre & Hout & Hfinal & Hcalls)].
  - rewrite Hlast, Hout, Hcalls. split.
    + split; [discriminate | intros [Hin _]; in_cases].
    + discriminate.
  - assert (Hin : In NsLastEntry (pre ++ sCalls (fetchSummary env g0))
                  <-> In NsLastEntry (sCalls (fetchSummary env g0))).
    { rewrite in_app_iff.
      destruct Hpre as [(-> & _) | (-> & _)]; split; auto;
        intros [Hin | Hin]; auto; in_cases. }
    rewrite Hlast, Hout, Hcalls, Hin. split; [apply fetchSummary_thrown|].
    intros Hthrown.
    destruct (fetchSummary_thrown_effects env g0 msg Hthrown) as [Hkept Hnone].
    split.
    + intros fm Hup.
      assert (Hup' : In (NsUploadEntries fm) (remoteCalls (emitted (main env g))))
        by (apply in_remoteCalls_iff; now split).
      rewrite Hcalls in Hup'. apply in_app_or in Hup' as [Hup' | Hup'].
      * destruct Hpre as [(-> & _) | (-> & _)]; in_cases.
      * exact (Hnone fm Hup').
    + apply (keepsAuthenticatedSession_of_summary env g pre g0 Hpre).
      rewrite Hfinal. unfold summaryFinal. now rewrite Hkept.
Qed.

(** Without a failed request, a cycle either ended at a failed login or
    leaves the module-level variables of its authenticated part, with the
    configuration read during the cycle. *)
Lemma main_final_without_request_failure env g :
  ~ fetchFailed env (main env g) ->
  (outcome (hasValidAuthentication env g) = Returned false /\
   outcome (login env g) = Returned None /\
   final (main env g) = clearedSession (withConfig g (envConfig env)))
  \/
  (exists g0,
     ((g0 = g /\ outcome (hasValidAuthentication env g) = Returned true)
      \/
      (outcome (hasValidAuthentication env g) = Returned false /\
       outcome (login env g) = Returned (Some (authTicket g0)) /\
       userId g0 = userId (final (login env (clearedSession g))))) /\
     final (main env g) = withConfig g0 (envConfig env)).
Proof.
  intros Hnofail.
  destruct (main_summary env g)
    as [(Hvalid & Hlogin & _ & Hfinal & _)
       | (pre & g0 & Hpre & _ & Hfinal & Hcalls)].
  - left. now repeat split.
  - right. exists g0.
    destruct (sCleared (fetchSummary env g0)) eqn:Hcleared.
    + exfalso. apply Hnofail.
      destruct (fetchSummary_cleared env g0 Hcleared) as (ev & Hin & Hfail).
      exists ev. split; [|assumption].
      assert (Hin' : In ev (remoteCalls (emitted (main env g))))
        by (rewrite Hcalls; apply in_or_app; now right).
      now apply in_remoteCalls_iff in Hin'.
    + unfold summaryFinal in Hfinal. rewrite Hcleared in Hfinal.
      split; [|assumption].
      destruct Hpre as [(_ & -> & Hvalid) | (_ & Hvalid & Hlogin & Huser & _)];
        [left | right]; now repeat split.
Qed.

(** X3: a cycle in which no connections or graph request failed ends with
    the session it authenticated with, and with the configuration read
    during the cycle. *)
Theorem main_keeps_session_without_request_failure env g :
  ~ fetchFailed env (main env g) ->
  keepsAuthenticatedSession env g (main env g) /\
  config (final (main env g)) = envConfig env.
Proof.
  intros Hnofail. unfold keepsAuthenticatedSession.
  destruct (main_final_without_request_failure env g Hnofail)
    as [(Hvalid & Hlogin & Hfinal)
       | (g0 & [(-> & Hvalid) | (Hvalid & Hlogin & Huser)] & Hfinal)];
    rewrite Hfinal; cbn [withConfig clearedSession authTicket userId config].
  - split; [split; intros; congruence | reflexivity].
  - split; [|reflexivity]. split; [now split | intros; congruence].
  - split; [|reflexivity]. split; [intros; congruence|].
    intros ticket _ Hlogin'. rewrite Hlogin in Hlogin'.
    injection Hlogin' as <-. now split.
Qed.

(** *** What a cycle uploads *)

Lemma formatSpec_all_newer (last : option Entry) md x :
  In x (formatSpec last md) -> newerThan last (date x) = true.
Proof.
  intros Hin. apply (in_map date) in Hin. rewrite formatSpec_dates in Hin.
  now apply filter_In in Hin.
Qed.

Lemma filter_rejects_all {A : Type} (f : A -> bool) (l : list A) :
  (forall x, In x l -> f x = false) -> filter f l = [].
Proof.
  induction l as [|a l IH]; intros Hall; [reflexivity|].
  cbn [filter]. rewrite (Hall a (or_introl eq_refl)).
  apply IH. intros x Hx. apply Hall. now right.
Qed.

Lemma createFormattedMeasurements_returned env g md out :
  outcome (createFormattedMeasurements md env g) = Returned out ->
  exists last,
    out = formatSpec last md /\
    (allData (config g) = true /\ last = None
     \/ allData (config g) = false /\ lastEntryReply env = Returned last).
Proof.
  destruct (allData (config g)) eqn:Hall.
  - rewrite (createFormattedMeasurements_allData _ _ _ Hall). cbn [outcome].
    intros Heq. injection Heq as <-. exists None. auto.
  - destruct (lastEntryReply env) as [last | msg] eqn:Hlast.
    + rewrite (createFormattedMeasurements_lastEntry _ _ _ _ Hall Hlast).
      cbn [outcome]. intros Heq. injection Heq as <-. exists last. auto.
    + rewrite (createFormattedMeasurements_lastEntry_thrown _ _ _ _ Hall Hlast).
      discriminate.
Qed.

Lemma createFormattedMeasurements_formatSpec env g md last :
  allData (config g) = true /\ last = None
  \/ allData (config g) = false /\ lastEntryReply env = Returned last ->
  outcome (createFormattedMeasurements md env g) = Returned (formatSpec last md).
Proof.
  intros [[Hall ->] | [Hall Hlast]].
  - now rewrite (createFormattedMeasurements_allData _ _ _ Hall).
  - now rewrite (createFormattedMeasurements_lastEntry _ _ _ _ Hall Hlast).
Qed.

Lemma fetchSummary_uploaded env g fm :
  In (NsUploadEntries fm) (sCalls (fetchSummary env g)) ->
  exists cid data last,
    In (GetGraph cid (authHeadersOf g)) (sCalls (fetchSummary env g)) /\
    graphReply env cid (authHeadersOf g) = Response data /\
    fm = formatSpec last data /\
    (allData (envConfig env) = true /\ last = None
     \/ allData (envConfig env) = false /\ lastEntryReply env = Returned last).
Proof.
  unfold fetchSummary, uploadSummary.
  destruct (connectionsReply env (authHeadersOf g)) as [conns | msg'];
    [destruct (usableConnectionId _) as [cid|];
       [destruct (graphReply env cid (authHeadersOf g)) as [data | msg'] eqn:Hgraph;
          [destruct (allData (envConfig env)) eqn:Hall;
             [destruct (formatSpec None data) as [|e rest] eqn:Hfmt
             | destruct (lastEntryReply env) as [last | msg'] eqn:Hlast;
                 [destruct (formatSpec last data) as [|e rest] eqn:Hfmt|]]|]|]|];
    cbn [sCalls sOutcome uploadCalls]; intros Hin; in_cases.
  - exists cid, data, None. rewrite Hfmt. repeat split; cbn; auto.
  - exists cid, data, last. rewrite Hfmt. repeat split; cbn; auto.
Qed.

(** X4: whatever a cycle uploads is what [createFormattedMeasurements]
    returns, under the configuration read in that cycle, for the graph the
    cycle fetched; with a watermark, every uploaded entry is strictly newer
    than it. *)
Theorem main_uploads_new_readings env g formatted :
  In (NsUploadEntries formatted) (emitted (main env g)) ->
  exists cid h data,
    In (GetGraph cid h) (emitted (main env g)) /\
    graphReply env cid h = Response data /\
    (forall g', config g' = envConfig env ->
       outcome (createFormattedMeasurements data env g') = Returned formatted) /\
    (forall w,
       allData (envConfig env) = false ->
       lastEntryReply env = Returned (Some w) ->
       forall e, In e formatted -> date e > date w).
Proof.
  intros Hup.
  assert (Hup' : In (NsUploadEntries formatted) (remoteCalls (emitted (main env g))))
    by (apply in_remoteCalls_iff; now split).
  destruct (main_summary env g)
    as [(_ & _ & _ & _ & Hcalls) | (pre & g0 & Hpre & _ & _ & Hcalls)];
    rewrite Hcalls in Hup'; [in_cases|].
  apply in_app_or in Hup' as [Hup' | Hup'];
    [destruct Hpre as [(-> & _) | (-> & _)]; in_cases|].
  destruct (fetchSummary_uploaded env g0 formatted Hup')
    as (cid & data & last & Hgraph & Hreply & -> & Hlast).
  exists cid, (authHeadersOf g0), data. split; [|split; [assumption|split]].
  - assert (Hin : In (GetGraph cid (authHeadersOf g0))
                     (remoteCalls (emitted (main env g))))
      by (rewrite Hcalls; apply in_or_app; now right).
    now apply in_remoteCalls_iff in Hin.
  - intros g' Hcfg. apply createFormattedMeasurements_formatSpec.
    now rewrite Hcfg.
  - intros w Hall Hw e Hin.
    destruct Hlast as [[Hall' _] | [_ Hlast]]; [congruence|].
    rewrite Hw in Hlast. injection Hlast as <-.
    apply formatSpec_all_newer in Hin. cbn [newerThan] in Hin.
    apply Z.ltb_lt in Hin. lia.
Qed.

(** X5: the dedup stage does not upload twice.  Once the newest date of a
    formatted batch has become Nightscout's last entry, formatting the same
    graph again yields nothing, and the upload stage makes no upload
    call. *)
Theorem createFormattedMeasurements_nothing_new_after_upload
    env env' g g' md out watermark :
  outcome (createFormattedMeasurements md env g) = Returned out ->
  In (date watermark) (map date out) ->
  (forall e, In e out -> date e <= date watermark) ->
  allData (config g') = false ->
  lastEntryReply env' = Returned (Some watermark) ->
  outcome (createFormattedMeasurements md env' g') = Returned [] /\
  filter isUpload (emitted (uploadToNightScout md env' g')) = [].
Proof.
  intros Hout Hdate Hmax Hall Hlast.
  destruct (createFormattedMeasurements_returned env g md out Hout)
    as (last & -> & _).
  apply in_map_iff in Hdate as (newest & Hnewest & Hin).
  pose proof (formatSpec_all_newer last md newest Hin) as Hnew.
  assert (Hlater : forall d, date watermark < d -> newerThan last d = true).
  { intros d Hd. destruct last as [w|]; [|reflexivity].
    cbn [newerThan] in Hnew |- *. apply Z.ltb_lt in Hnew. apply Z.ltb_lt. lia. }
  assert (Hnone : formatSpec (Some watermark) md = []).
  { unfold formatSpec. cbn [newerThan].
    destruct (date watermark
              <? getUtcDateFromString
                   (FactoryTimestamp (glucoseMeasurement (connection md))))
      eqn:Hcur.
    - exfalso. apply Z.ltb_lt in Hcur.
      pose proof (proj2 (in_formatSpec_current last md) (Hlater _ Hcur)) as Hc.
      apply Hmax in Hc. cbn [currentEntry date] in Hc. lia.
    - cbn [app].
      rewrite filter_rejects_all; [reflexivity|]. intros e He.
      destruct (date watermark <? getUtcDateFromString (FactoryTimestamp e))
        eqn:Hhist; [|reflexivity].
      exfalso. apply Z.ltb_lt in Hhist.
      pose proof (proj2 (in_formatSpec_history last md e He) (Hlater _ Hhist))
        as Hh.
      apply Hmax in Hh. cbn [historyEntry date] in Hh. lia. }
  pose proof (createFormattedMeasurements_lastEntry env' g' md _ Hall Hlast)
    as Hrun.
  rewrite Hnone in Hrun. split; [now rewrite Hrun|].
  now rewrite (uploadToNightScout_formatted _ _ _ _ _ Hrun).
Qed.

(** *** Headers and login *)

Lemma truthyString_iff (s : string) : truthyString s = true <-> s <> "".
Proof.
  unfold truthyString. rewrite negb_true_iff. apply String.eqb_neq.
Qed.

(** X6: [getLluAuthHeaders] only reads the session cache: it changes
    nothing, makes no remote call and does not throw.  The account id
    header is the digest of the cached user id; the authorization header
    is the bearer token, and with an empty token it reads "Bearer null",
    after a warning. *)
Theorem getLluAuthHeaders_from_session env g :
  let r := getLluAuthHeaders env g in
  final r = g /\
  remoteCalls (emitted r) = [] /\
  exists h,
    outcome r = Returned h /\
    account_id h = sha256Hex (userId g) /\
    (token (authTicket g) <> "" ->
     Authorization h = Some ("Bearer " ++ token (authTicket g))%string /\
     emitted r = [Log LvlDebug "Authenticated headers: "]) /\
    (token (authTicket g) = "" ->
     Authorization h = Some "Bearer null" /\
     emitted r = [Log LvlWarn "No authTicket.token found";
                  Log LvlDebug "Authenticated headers: "]).
Proof.
  cbn zeta. unfold getLluAuthHeaders. run_prims.
  destruct (truthyString (token (authTicket g))) eqn:Htoken; run_prims.
  - apply truthyString_iff in Htoken.
    split; [reflexivity|]. split; [reflexivity|].
    eexists. split; [reflexivity|]. split; [reflexivity|]. split.
    + intros _. split; reflexivity.
    + intros Hempty. contradiction.
  - assert (Hempty : token (authTicket g) = "").
    { destruct (String.eqb_spec (token (authTicket g)) "") as [He | Hne];
        [assumption|].
      apply truthyString_iff in Hne. congruence. }
    split; [reflexivity|]. split; [reflexivity|].
    eexists. split; [reflexivity|]. split; [reflexivity|]. split.
    + intros Hne. contradiction.
    + intros _. split; reflexivity.
Qed.

(** What [login] returns and caches when it returns a ticket. *)
Lemma login_accepted env g resp ticket :
  loginReply env = Response resp ->
  outcome (login env g) = Returned (Some ticket) ->
  ticket = loginAuthTicket (loginData resp) /\
  userId (final (login env g)) = id (user (loginData resp)).
Proof.
  intros Hreply. unfold login. run_prims. rewrite Hreply. run_prims.
  destruct (negb (status resp =? 0)); run_prims; [discriminate|].
  destruct (strictEqTrue (redirect (loginData resp))
            && truthyOptString (region (loginData resp))); run_prims;
    [discriminate|].
  intros Heq. injection Heq as <-. now split.
Qed.

(** X7: when the login request itself fails, [login] logs the error, catches
    the exception of reading the reply and returns [null] without caching
    anything; a cycle that needed that login ends with an empty session
    cache after the login request alone. *)
Theorem login_request_error env g msg :
  loginReply env = RequestError msg ->
  login env g
  = mkRun (Returned None) (withConfig g (envConfig env))
      [PostLogin libreLinkUpHttpHeaders; Log LvlError msg;
       Log LvlError "Invalid credentials"] /\
  (outcome (hasValidAuthentication env g) = Returned false ->
   outcome (main env g) = Returned tt /\
   final (main env g) = clearedSession (withConfig g (envConfig env)) /\
   remoteCalls (emitted (main env g)) = [PostLogin libreLinkUpHttpHeaders]).
Proof.
  intros Hreply.
  assert (Hlogin : forall g0,
             login env g0
             = mkRun (Returned None) (withConfig g0 (envConfig env))
                 [PostLogin libreLinkUpHttpHeaders; Log LvlError msg;
                  Log LvlError "Invalid credentials"]).
  { intros g0. unfold login. run_prims. rewrite Hreply. reflexivity. }
  split; [apply Hlogin|]. intros Hinvalid.
  destruct (main_summary env g)
    as [(_ & _ & Hout & Hfinal & Hcalls) | (pre & g0 & Hpre & _)].
  - now repeat split.
  - destruct Hpre as [(_ & _ & Hvalid) | (_ & _ & Hsome & _)].
    + congruence.
    + rewrite Hlogin in Hsome. discriminate Hsome.
Qed.

(** X8: the bearer token and account id of every connections and graph
    request of a cycle are those of the session the cycle authenticated
    with: the cached ones when the session was still valid, and otherwise
    the ticket and user id of the login reply. *)
Theorem main_requests_carry_session env g h :
  In (GetConnections h) (emitted (main env g)) \/
  (exists cid, In (GetGraph cid h) (emitted (main env g))) ->
  (outcome (hasValidAuthentication env g) = Returned true ->
   account_id h = sha256Hex (userId g) /\
   (token (authTicket g) <> "" ->
    Authorization h = Some (bearer (Some (token (authTicket g)))))) /\
  (forall resp,
     outcome (hasValidAuthentication env g) = Returned false ->
     loginReply env = Response resp ->
     account_id h = sha256Hex (id (user (loginData resp))) /\
     (token (loginAuthTicket (loginData resp)) <> "" ->
      Authorization h
      = Some (bearer (Some (token (loginAuthTicket (loginData resp))))))).
Proof.
  intros Hreq.
  assert (Hfields : forall g0,
             account_id (authHeadersOf g0) = sha256Hex (userId g0) /\
             (token (authTicket g0) <> "" ->
              Authorization (authHeadersOf g0)
              = Some (bearer (Some (token (authTicket g0)))))).
  { intros g0. split; [reflexivity|]. intros Hne.
    apply truthyString_iff in Hne. unfold authHeadersOf.
    cbn [Authorization]. now rewrite Hne. }
  destruct (main_summary env g)
    as [(_ & _ & _ & _ & Hcalls) | (pre & g0 & Hpre & _ & _ & Hcalls)].
  - exfalso.
    destruct Hreq as [Hin | (cid & Hin)];
      (assert (Hin' : In _ (remoteCalls (emitted (main env g))))
         by (apply in_remoteCalls_iff; split; [exact Hin | reflexivity]));
      rewrite Hcalls in Hin'; in_cases.
  - assert (Hh : h = authHeadersOf g0).
    { destruct (fetchSummary_order env g0)
        as (_ & _ & Hgraph & Hconn & _).
      destruct Hreq as [Hin | (cid & Hin)];
        (assert (Hin' : In _ (remoteCalls (emitted (main env g))))
           by (apply in_remoteCalls_iff; split; [exact Hin | reflexivity]));
        rewrite Hcalls in Hin'; apply in_app_or in Hin' as [Hin' | Hin'].
      - destruct Hpre as [(-> & _) | (-> & _)]; in_cases.
      - now apply Hconn.
      - destruct Hpre as [(-> & _) | (-> & _)]; in_cases.
      - now apply (Hgraph cid h). }
    subst h. destruct (Hfields g0) as [Hacc Hauth].
    destruct Hpre as [(_ & -> & Hvalid) | (_ & Hvalid & Hlogin & Huser & _)].
    + split; [now split | intros; congruence].
    + split; [intros; congruence|]. intros resp _ Hreply.
      rewrite (login_outcome_independent env g (clearedSession g)) in Hlogin.
      destruct (login_accepted env (clearedSession g) resp _ Hreply Hlogin)
        as [Hticket Hid].
      rewrite <- Hticket, <- Hid, <- Huser. now split.
Qed.

(** *** Resolution and fetching *)

Lemma resolveSpec_sound configured conns cid :
  resolveSpec configured conns = Some cid ->
  (exists c, In c conns /\ patientId c = cid) /\
  ((1 < List.length conns)%nat ->
   forall wanted, configured = Some wanted -> wanted <> "" -> cid = wanted).
Proof.
  destruct conns as [|c1 [|c2 rest]]; cbn [resolveSpec].
  - discriminate.
  - intros Heq. injection Heq as <-. split.
    + exists c1. split; [now left | reflexivity].
    + cbn. lia.
  - destruct (truthyOptString configured) eqn:Htruthy.
    + destruct (find _ (c1 :: c2 :: rest)) as [c|] eqn:Hfind; [|discriminate].
      cbn [option_map]. intros Heq. injection Heq as <-.
      apply find_some in Hfind as [Hin Hmatch]. split.
      * now exists c.
      * intros _ wanted -> _. cbn in Hmatch. now apply String.eqb_eq in Hmatch.
    + intros Heq. injection Heq as <-. split.
      * exists c1. split; [now left | reflexivity].
      * intros _ wanted -> Hne. apply truthyString_iff in Hne.
        cbn in Htruthy. congruence.
Qed.

Lemma getLluAuthHeaders_outcome env g :
  outcome (getLluAuthHeaders env g) = Returned (authHeadersOf g).
Proof.
  destruct (getLluAuthHeaders_run env g) as (logs & Hrun & _). now rewrite Hrun.
Qed.

(** X9: a connection id returned by [getLibreLinkUpConnection] is the
    patient id of a connection of the answered list, never anything else;
    with several connections and a configured id it is the configured id.
    The session cache is then untouched. *)
Theorem getLibreLinkUpConnection_resolves_listed_patient env g cid :
  outcome (getLibreLinkUpConnection env g) = Returned (Some cid) ->
  exists h conns c,
    outcome (getLluAuthHeaders env g) = Returned h /\
    connectionsReply env h = Response conns /\
    In c conns /\ patientId c = cid /\
    authTicket (final (getLibreLinkUpConnection env g)) = authTicket g /\
    userId (final (getLibreLinkUpConnection env g)) = userId g /\
    ((1 < List.length conns)%nat ->
     forall wanted,
       linkUpConnection (envConfig env) = Some wanted -> wanted <> "" ->
       cid = wanted).
Proof.
  intros Hout. exists (authHeadersOf g).
  destruct (connectionsReply env (authHeadersOf g)) as [conns | msg] eqn:Hreply.
  - destruct (getLibreLinkUpConnection_answered env g conns Hreply)
      as (logs & Hrun & _).
    rewrite Hrun in Hout |- *. cbn [outcome final] in Hout |- *.
    injection Hout as Hres.
    destruct (resolveSpec_sound _ _ _ Hres) as [(c & Hin & Hid) Hwanted].
    exists conns, c. rewrite getLluAuthHeaders_outcome. now repeat split.
  - destruct (getLibreLinkUpConnection_failed env g msg Hreply)
      as (logs & Hrun & _).
    rewrite Hrun in Hout. discriminate Hout.
Qed.

(** X10: [getGlucoseMeasurements] returns graph data exactly when resolution
    returned a non-empty connection id and the graph request for that id,
    sent with the session's headers, was answered: the data is that
    answer. *)
Theorem getGlucoseMeasurements_returns_resolved_graph env g data :
  outcome (getGlucoseMeasurements env g) = Returned (Some data) <->
  exists h cid,
    outcome (getLluAuthHeaders env g) = Returned h /\
    outcome (getLibreLinkUpConnection env g) = Returned (Some cid) /\
    cid <> "" /\
    graphReply env cid h = Response data.
Proof.
  rewrite getLluAuthHeaders_outcome.
  destruct (connectionsReply env (authHeadersOf g)) as [conns | msg] eqn:Hreply.
  - destruct (getLibreLinkUpConnection_answered env g conns Hreply)
      as (clogs & Hconn & _).
    rewrite Hconn. cbn [outcome].
    destruct (usableConnectionId
                (resolveSpec (linkUpConnection (envConfig env)) conns))
      as [cid|] eqn:Hcid.
    + assert (Hres : resolveSpec (linkUpConnection (envConfig env)) conns
                     = Some cid).
      { destruct (resolveSpec _ conns) as [c|]; cbn in Hcid; [|discriminate].
        destruct (truthyString c); [congruence | discriminate]. }
      pose proof (usableConnectionId_nonempty _ _ Hcid) as Hne.
      destruct (graphReply env cid (authHeadersOf g)) as [data' | msg]
        eqn:Hgraph.
      * destruct (getGlucoseMeasurements_fetched _ _ _ _ _ Hreply Hcid Hgraph)
          as (logs & Hrun & _).
        rewrite Hrun, Hres. cbn [outcome]. split.
        -- intros Heq. injection Heq as <-.
           exists (authHeadersOf g), cid. now repeat split.
        -- intros (h & cid' & Hh & Hc & _ & Hg).
           injection Hh as <-. injection Hc as <-. congruence.
      * destruct (getGlucoseMeasurements_graph_failed _ _ _ _ _ Hreply Hcid Hgraph)
          as (logs & Hrun & _).
        rewrite Hrun, Hres. cbn [outcome]. split; [discriminate|].
        intros (h & cid' & Hh & Hc & _ & Hg).
        injection Hh as <-. injection Hc as <-. congruence.
    + destruct (getGlucoseMeasurements_unresolved _ _ _ Hreply Hcid)
        as (logs & Hrun & _).
      rewrite Hrun. cbn [outcome]. split; [discriminate|].
      intros (h & cid' & _ & Hc & Hne & _). injection Hc as Hres.
      rewrite Hres in Hcid. cbn in Hcid.
      apply truthyString_iff in Hne. rewrite Hne in Hcid. discriminate Hcid.
  - destruct (getGlucoseMeasurements_connections_failed _ _ _ Hreply)
      as (logs & Hrun & _).
    destruct (getLibreLinkUpConnection_failed env g msg Hreply)
      as (clogs & Hconn & _).
    rewrite Hrun, Hconn. cbn [outcome]. split; [discriminate|].
    intros (h & cid' & _ & Hc & _). discriminate Hc.
Qed.

(** X11: no exception escapes [login], [getLibreLinkUpConnection] or
    [getGlucoseMeasurements], whatever the replies, and a tick of the
    schedule always completes normally. *)
Theorem api_functions_never_throw env g :
  (exists o, outcome (login env g) = Returned o) /\
  (exists o, outcome (getLibreLinkUpConnection env g) = Returned o) /\
  (exists o, outcome (getGlucoseMeasurements env g) = Returned o) /\
  outcome (cronTick env g) = Returned tt.
Proof.
  split; [|split; [|split]].
  - destruct (login_run env g) as (o & g' & logs & Hrun & _).
    exists o. now rewrite Hrun.
  - destruct (connectionsReply env (authHeadersOf g)) as [conns | msg] eqn:Hreply.
    + destruct (getLibreLinkUpConnection_answered env g conns Hreply)
        as (logs & Hrun & _).
      eexists. now rewrite Hrun.
    + destruct (getLibreLinkUpConnection_failed env g msg Hreply)
        as (logs & Hrun & _).
      eexists. now rewrite Hrun.
  - destruct (connectionsReply env (authHeadersOf g)) as [conns | msg] eqn:Hreply.
    + destruct (usableConnectionId
                  (resolveSpec (linkUpConnection (envConfig env)) conns))
        as [cid|] eqn:Hcid.
      * destruct (graphReply env cid (authHeadersOf g)) as [data | msg]
          eqn:Hgraph.
        -- destruct (getGlucoseMeasurements_fetched _ _ _ _ _ Hreply Hcid Hgraph)
             as (logs & Hrun & _).
           eexists. now rewrite Hrun.
        -- destruct (getGlucoseMeasurements_graph_failed _ _ _ _ _
                       Hreply Hcid Hgraph) as (logs & Hrun & _).
           eexists. now rewrite Hrun.
      * destruct (getGlucoseMeasurements_unresolved _ _ _ Hreply Hcid)
          as (logs & Hrun & _).
        eexists. now rewrite Hrun.
    + destruct (getGlucoseMeasurements_connections_failed _ _ _ Hreply)
        as (logs & Hrun & _).
      eexists. now rewrite Hrun.
  - unfold cronTick. run_prims. now destruct (main env g) as [[[]|msg] g' evs].
Qed.

(** *** The validity check *)

(** X12: in milliseconds, the session is valid up to, and not including, the
    first millisecond of the expiry second. *)
Theorem hasValidAuthentication_until_expiry_millisecond env g expiry :
  expires (authTicket g) = Some expiry ->
  (outcome (hasValidAuthentication env g) = Returned true
   <-> dateNow env < 1000 * expiry).
Proof.
  intros Hexp. unfold hasValidAuthentication. run_prims. rewrite Hexp.
  cbn [outcome]. split.
  - intros Heq. injection Heq as Hlt. apply Z.ltb_lt in Hlt.
    pose proof (Z.mul_div_le (dateNow env) 1000 ltac:(lia)).
    pose proof (Z.mod_pos_bound (dateNow env) 1000 ltac:(lia)).
    pose proof (Z.div_mod (dateNow env) 1000 ltac:(lia)). lia.
  - intros Hlt. f_equal. apply Z.ltb_lt.
    apply Z.div_lt_upper_bound; lia.
Qed.

(** X13: a ticket without an expiry counts as invalid: the check logs it and
    returns [false] at any time, so the cycle starts with a login. *)
Theorem undefined_expiry_forces_login env g :
  expires (authTicket g) = None ->
  hasValidAuthentication env g
  = mkRun (Returned false) g [Log LvlInfo "authTicket.expires is undefined"] /\
  exists later,
    remoteCalls (emitted (main env g)) = PostLogin libreLinkUpHttpHeaders :: later.
Proof.
  intros Hexp.
  assert (Hrun : hasValidAuthentication env g
                 = mkRun (Returned false) g
                     [Log LvlInfo "authTicket.expires is undefined"]).
  { unfold hasValidAuthentication. run_prims. now rewrite Hexp. }
  split; [exact Hrun|].
  destruct (main_summary env g)
    as [(_ & _ & _ & _ & Hcalls) | (pre & g0 & Hpre & _ & _ & Hcalls)];
    rewrite Hcalls.
  - now exists [].
  - destruct Hpre as [(_ & _ & Hvalid) | (-> & _)].
    + rewrite Hrun in Hvalid. discriminate Hvalid.
    + eexists. reflexivity.
Qed.

(** *** The stealth cipher list *)

(** X14: with at least three default ciphers, the stealth list holds the same
    ciphers with the second and third exchanged and nothing undefined;
    with fewer, it still has three entries, some of them undefined. *)
Theorem stealthCiphers_swaps_second_and_third (defaultCiphers : list string) :
  ((3 <= List.length defaultCiphers)%nat ->
   (exists c0 c1 c2 others,
      defaultCiphers = c0 :: c1 :: c2 :: others /\
      stealthCiphers defaultCiphers = map Some (c0 :: c2 :: c1 :: others)) /\
   Permutation (map Some defaultCiphers) (stealthCiphers defaultCiphers) /\
   ~ In None (stealthCiphers defaultCiphers)) /\
  ((List.length defaultCiphers < 3)%nat ->
   List.length (stealthCiphers defaultCiphers) = 3%nat /\
   In None (stealthCiphers defaultCiphers)).
Proof.
  destruct defaultCiphers as [|c0 [|c1 [|c2 others]]]; cbn [List.length];
    (split; [intros Hlen | intros Hlen]); try lia.
  - split; [reflexivity | cbn; auto].
  - split; [reflexivity | cbn; auto].
  - split; [reflexivity | cbn; auto].
  - split; [|split].
    + now exists c0, c1, c2, others.
    + cbn. apply perm_skip. apply perm_swap.
    + unfold stealthCiphers. cbn [nth_error skipn app].
      intros [Habs | [Habs | [Habs | Habs]]]; try discriminate Habs.
      apply in_map_iff in Habs as (x & Habs & _). discriminate Habs.
Qed.

(** *** Reuse of the session *)

Lemma fetchSummary_no_login env g h :
  ~ In (PostLogin h) (sCalls (fetchSummary env g)).
Proof.
  unfold fetchSummary, uploadSummary.
  destruct (connectionsReply env (authHeadersOf g)) as [conns | msg'];
    [destruct (usableConnectionId _) as [cid|];
       [destruct (graphReply env cid (authHeadersOf g)) as [data | msg'];
          [destruct (allData (envConfig env));
             [destruct (formatSpec None data) as [|e rest]
             | destruct (lastEntryReply env) as [last | msg'];
                 [destruct (formatSpec last data) as [|e rest]|]]|]|]|];
    cbn [sCalls sOutcome uploadCalls]; intros Hin; in_cases.
Qed.

Lemma main_valid_calls env g :
  outcome (hasValidAuthentication env g) = Returned true ->
  remoteCalls (emitted (main env g)) = sCalls (fetchSummary env g).
Proof.
  intros Hvalid.
  destruct (main_summary env g)
    as [(Hinvalid & _) | (pre & g0 & Hpre & _ & _ & Hcalls)]; [congruence|].
  destruct Hpre as [(-> & -> & _) | (_ & Hinvalid & _)]; [|congruence].
  exact Hcalls.
Qed.

(** X15: a cycle that finds the session valid makes no login request: its
    first remote call is the connections request, with the headers built
    from the cached session. *)
Theorem valid_session_skips_login env g :
  outcome (hasValidAuthentication env g) = Returned true ->
  (forall h, ~ In (PostLogin h) (emitted (main env g))) /\
  exists h later,
    outcome (getLluAuthHeaders env g) = Returned h /\
    remoteCalls (emitted (main env g)) = GetConnections h :: later.
Proof.
  intros Hvalid. pose proof (main_valid_calls env g Hvalid) as Hcalls. split.
  - intros h Hin.
    assert (Hin' : In (PostLogin h) (remoteCalls (emitted (main env g))))
      by (apply in_remoteCalls_iff; now split).
    rewrite Hcalls in Hin'. exact (fetchSummary_no_login env g h Hin').
  - destruct (fetchSummary_order env g) as ((later & Hfirst) & _).
    exists (authHeadersOf g), later. rewrite getLluAuthHeaders_outcome.
    split; [reflexivity|]. now rewrite Hcalls.
Qed.

(** X16: the ticket of a login is reused.  When a cycle logged in and none of
    its requests failed, a following cycle that starts before the ticket's
    expiry makes no login request. *)
Theorem login_ticket_reused_by_next_cycle env next g ticket expiry :
  outcome (hasValidAuthentication env g) = Returned false ->
  outcome (login env g) = Returned (Some ticket) ->
  ~ fetchFailed env (main env g) ->
  expires ticket = Some expiry ->
  dateNow next < 1000 * expiry ->
  authTicket (final (main env g)) = ticket /\
  forall h, ~ In (PostLogin h) (emitted (main next (final (main env g)))).
Proof.
  intros Hinvalid Hlogin Hnofail Hexp Hnow.
  assert (Hticket : authTicket (final (main env g)) = ticket).
  { destruct (main_final_without_request_failure env g Hnofail)
      as [(_ & Hnone & _)
         | (g0 & [(_ & Hvalid) | (_ & Hsome & _)] & Hfinal)]; try congruence.
    rewrite Hfinal. cbn [withConfig authTicket]. congruence. }
  split; [exact Hticket|].
  assert (Hvalid : outcome (hasValidAuthentication next (final (main env g)))
                   = Returned true).
  { unfold hasValidAuthentication. run_prims. rewrite Hticket, Hexp.
    cbn [outcome]. f_equal. apply Z.ltb_lt. apply Z.div_lt_upper_bound; lia. }
  intros h Hin.
  assert (Hin' : In (PostLogin h)
                    (remoteCalls (emitted (main next (final (main env g))))))
    by (apply in_remoteCalls_iff; now split).
  rewrite (main_valid_calls next _ Hvalid) in Hin'.
  exact (fetchSummary_no_login next _ h Hin').
Qed.

(** *** The formatted entries *)



End Properties.

(** ** The properties on concrete cycles *)

Lemma createFormattedMeasurements_strictly_newer_example :
  allData (config sampleGlobals) = false /\
  lastEntryReply sampleEnv = Returned (Some sampleWatermark) /\
  exists out,
    outcome (createFormattedMeasurements sampleGraph sampleEnv sampleGlobals)
    = Returned out /\
    map date out = [150].
Proof.
  split; [reflexivity|]. split; [reflexivity|].
  destruct (createFormattedMeasurements_strictly_newer
              sampleEnv sampleGlobals sampleGraph sampleWatermark eq_refl eq_refl)
    as (out & Hout & _ & _ & _ & Hexample).
  exists out. split; [exact Hout|].
  apply Hexample; [reflexivity|].
  exact (Permutation_cons_append [90; 100] 150).
Defined.

Lemma createFormattedMeasurements_without_watermark_example :
  allData (config allDataGlobals) = true /\
  outcome (createFormattedMeasurements sampleGraph sampleEnv allDataGlobals)
  = Returned [sampleNewEntry;
              {| date := 90; direction := None; sgv := 101 |};
              {| date := 100; direction := None; sgv := 102 |}] /\
  emitted (createFormattedMeasurements sampleGraph sampleEnv allDataGlobals) = [].
Proof.
  split; [reflexivity|].
  destruct (createFormattedMeasurements_without_watermark
              sampleEnv allDataGlobals sampleGraph (or_introl eq_refl))
    as (Hout & _ & _ & Hquiet).
  split; [exact Hout | exact (Hquiet eq_refl)].
Defined.

Lemma getLibreLinkUpConnection_policy_example :
  (forall headers, connectionsReply unmatchedEnv headers = Response twoConnections) /\
  outcome (getLibreLinkUpConnection unmatchedEnv sampleGlobals) = Returned None /\
  (forall ev, In ev (emitted (main unmatchedEnv sampleGlobals)) ->
              isFetchOrUpload ev = false).
Proof.
  split; [intros headers; reflexivity|].
  destruct (getLibreLinkUpConnection_policy unmatchedEnv twoConnections
              (fun _ => eq_refl)) as (_ & _ & _ & Hconfigured).
  assert (Hlen : (1 < List.length twoConnections)%nat) by (cbn; lia).
  assert (Hne : "p9" <> "") by discriminate.
  destruct (Hconfigured "p9" Hlen eq_refl Hne) as [_ Hunmatched].
  destruct Hunmatched as [Hnone Hquiet].
  { intros c [<- | [<- | []]]; discriminate. }
  split; [apply Hnone | apply Hquiet].
Defined.

(** C4 as stated fails: with a valid session, a cycle whose resolution
    yields no patient (no connection at all, or a configured id that
    matches none) ends with the ticket and account id it started with. *)
Lemma resolution_without_patient_keeps_session :
  outcome (hasValidAuthentication noConnectionEnv sampleGlobals) = Returned true /\
  outcome (getLibreLinkUpConnection noConnectionEnv sampleGlobals) = Returned None /\
  authTicket (final (main noConnectionEnv sampleGlobals)) = sampleTicket /\
  userId (final (main noConnectionEnv sampleGlobals)) = "user-1" /\
  authTicket (final (main noConnectionEnv sampleGlobals)) <> emptyAuthTicket /\
  outcome (getLibreLinkUpConnection unmatchedEnv sampleGlobals) = Returned None /\
  authTicket (final (main unmatchedEnv sampleGlobals)) = sampleTicket /\
  userId (final (main unmatchedEnv sampleGlobals)) = "user-1" /\
  outcome (hasValidAuthentication sampleEnv (final (main unmatchedEnv sampleGlobals)))
  = Returned true.
Proof.
  repeat split; try reflexivity. discriminate.
Qed.

Lemma request_failure_clears_session_example :
  fetchFailed connectionsDownEnv (main connectionsDownEnv sampleGlobals) /\
  authTicket (final (main connectionsDownEnv sampleGlobals)) = emptyAuthTicket /\
  userId (final (main connectionsDownEnv sampleGlobals)) = "".
Proof.
  assert (Hasked : existsb isConnectionsRequest
                     (emitted (main connectionsDownEnv sampleGlobals)) = true)
    by (vm_compute; reflexivity).
  apply existsb_exists in Hasked as (ev & Hin & Hev).
  assert (Hfailed : fetchFailed connectionsDownEnv
                      (main connectionsDownEnv sampleGlobals)).
  { exists ev. split; [exact Hin|].
    destruct ev; try discriminate Hev. exists "ECONNRESET". reflexivity. }
  split; [exact Hfailed|].
  pose proof (request_failure_clears_session connectionsDownEnv sampleGlobals)
    as Hcycle.
  cbv zeta in Hcycle. destruct Hcycle as [Hclears _].
  destruct (Hclears Hfailed) as (_ & Hticket & Huser & _).
  split; [exact Hticket | exact Huser].
Defined.

Lemma failure_forces_fresh_login_example :
  authenticationFailed rejectedLoginEnv expiredGlobals /\
  token (authTicket (final (main rejectedLoginEnv expiredGlobals))) = "" /\
  expires (authTicket (final (main rejectedLoginEnv expiredGlobals))) = Some 0 /\
  userId (final (main rejectedLoginEnv expiredGlobals)) = "".
Proof.
  assert (Hfailed : authenticationFailed rejectedLoginEnv expiredGlobals)
    by (split; reflexivity).
  split; [exact Hfailed|].
  pose proof (failure_forces_fresh_login rejectedLoginEnv expiredGlobals)
    as Hcycle.
  cbv zeta in Hcycle.
  destruct (Hcycle (or_introl Hfailed)) as (Htoken & Hexpires & Huser & _).
  repeat split; assumption.
Defined.

Lemma login_by_response_example :
  loginReply sampleEnv = Response sampleLogin /\
  outcome (login sampleEnv expiredGlobals) = Returned (Some sampleTicket) /\
  userId (final (login sampleEnv expiredGlobals)) = "user-1".
Proof.
  split; [reflexivity|].
  pose proof (login_by_response sampleEnv expiredGlobals sampleLogin eq_refl)
    as Hlogin.
  cbv zeta in Hlogin. destruct Hlogin as [_ Haccepted].
  destruct (Haccepted eq_refl) as (Hout & Huser & _).
  { intros [Hredirect _]. discriminate Hredirect. }
  split; [exact Hout | exact Huser].
Defined.

Lemma uploadToNightScout_uploads_once_example :
  outcome (createFormattedMeasurements sampleGraph sampleEnv sampleGlobals)
  = Returned [sampleNewEntry] /\
  filter isUpload (emitted (uploadToNightScout sampleGraph sampleEnv sampleGlobals))
  = [NsUploadEntries [sampleNewEntry]].
Proof.
  split; [reflexivity|].
  pose proof (uploadToNightScout_uploads_once_iff_nonempty
                sampleEnv sampleGlobals sampleGraph [sampleNewEntry] eq_refl)
    as Hupload.
  cbv zeta in Hupload. destruct Hupload as (_ & _ & Hnonempty).
  apply Hnonempty. discriminate.
Defined.

Lemma upload_failure_keeps_session_example :
  outcome (createFormattedMeasurements sampleGraph uploadDownEnv sampleGlobals)
  = Returned [sampleNewEntry] /\
  uploadEntriesReply uploadDownEnv [sampleNewEntry]
  = Thrown "failed to post new entries" /\
  outcome (uploadToNightScout sampleGraph uploadDownEnv sampleGlobals) = Returned tt /\
  final (uploadToNightScout sampleGraph uploadDownEnv sampleGlobals) = sampleGlobals /\
  outcome (main uploadDownEnv sampleGlobals) = Returned tt /\
  authTicket (final (main uploadDownEnv sampleGlobals)) = sampleTicket.
Proof.
  split; [reflexivity|]. split; [reflexivity|].
  destruct (upload_failure_keeps_session uploadDownEnv sampleGlobals)
    as [Hstage Hcycle].
  assert (Hne : [sampleNewEntry] <> []) by discriminate.
  pose proof (Hstage sampleGraph [sampleNewEntry] _ eq_refl Hne eq_refl) as Hrun.
  cbv zeta in Hrun. destruct Hrun as (Hout & Hfinal & _).
  split; [exact Hout|]. split; [exact Hfinal|].
  assert (Huploaded : existsb isUpload
                        (emitted (main uploadDownEnv sampleGlobals)) = true)
    by (vm_compute; reflexivity).
  apply existsb_exists in Huploaded as (ev & Hin & Hev).
  destruct ev as [| | | | |entries]; try discriminate Hev.
  destruct (Hcycle entries _ Hin eq_refl) as [Hmain [Hvalid _]].
  split; [exact Hmain|]. apply Hvalid. reflexivity.
Defined.

Lemma hasValidAuthentication_iff_before_expiry_example :
  expires (authTicket sampleGlobals) = Some 2000 /\
  hasValidAuthentication sampleEnv sampleGlobals
  = mkRun (Returned true) sampleGlobals [] /\
  hasValidAuthentication sampleEnv expiredGlobals
  = mkRun (Returned false) expiredGlobals [].
Proof.
  split; [reflexivity|].
  destruct (hasValidAuthentication_iff_before_expiry
              sampleEnv sampleGlobals 2000 eq_refl) as (b & Hrun & Hb).
  destruct (hasValidAuthentication_iff_before_expiry
              sampleEnv expiredGlobals 1000 eq_refl) as (b' & Hrun' & Hb').
  assert (Htrue : b = true) by (apply Hb; vm_compute; reflexivity).
  assert (Hfalse : b' = false).
  { destruct b'; [|reflexivity]. destruct Hb' as [Hlt _].
    specialize (Hlt eq_refl). vm_compute in Hlt. discriminate Hlt. }
  rewrite Htrue in Hrun. rewrite Hfalse in Hrun'.
  split; [exact Hrun | exact Hrun'].
Defined.

(** ** Further properties on concrete cycles *)

Lemma sampleEnv_requests_succeed (r : Run unit) : ~ fetchFailed sampleEnv r.
Proof.
  intros (ev & _ & Hfail).
  destruct ev; cbn in Hfail; try contradiction;
    destruct Hfail as [msg Hfail]; discriminate Hfail.
Qed.

Lemma main_throws_iff_lastEntry_throws_example :
  outcome (main lastEntryDownEnv sampleGlobals) = Thrown "failed to get last entry" /\
  authTicket (final (main lastEntryDownEnv sampleGlobals)) = sampleTicket /\
  outcome (cronTick lastEntryDownEnv sampleGlobals) = Returned tt.
Proof.
  destruct (main_throws_iff_lastEntry_throws
              lastEntryDownEnv sampleGlobals "failed to get last entry")
    as [_ Heffects].
  assert (Hthrown : outcome (main lastEntryDownEnv sampleGlobals)
                    = Thrown "failed to get last entry") by reflexivity.
  destruct (Heffects Hthrown) as [_ [Hvalid _]].
  split; [exact Hthrown|]. split; [|reflexivity].
  apply Hvalid. reflexivity.
Defined.

Lemma main_keeps_session_example :
  ~ fetchFailed sampleEnv (main sampleEnv expiredGlobals) /\
  authTicket (final (main sampleEnv expiredGlobals)) = sampleTicket /\
  config (final (main sampleEnv expiredGlobals)) = sampleConfig.
Proof.
  split; [apply sampleEnv_requests_succeed|].
  destruct (main_keeps_session_without_request_failure sampleEnv expiredGlobals
              (sampleEnv_requests_succeed _)) as [[_ Hlogin] Hconfig].
  split; [|exact Hconfig].
  apply (Hlogin sampleTicket); reflexivity.
Defined.

Lemma main_uploads_new_readings_example :
  exists formatted,
    In (NsUploadEntries formatted) (emitted (main sampleEnv sampleGlobals)) /\
    forall e, In e formatted -> date e > 100.
Proof.
  assert (Huploaded : existsb isUpload (emitted (main sampleEnv sampleGlobals))
                      = true) by (vm_compute; reflexivity).
  apply existsb_exists in Huploaded as (ev & Hin & Hev).
  destruct ev as [| | | | |formatted]; try discriminate Hev.
  exists formatted. split; [exact Hin|].
  destruct (main_uploads_new_readings sampleEnv sampleGlobals formatted Hin)
    as (cid & h & data & _ & _ & _ & Hnewer).
  exact (Hnewer sampleWatermark eq_refl eq_refl).
Defined.

Lemma createFormattedMeasurements_nothing_new_after_upload_example :
  outcome (createFormattedMeasurements sampleGraph sampleEnv sampleGlobals)
  = Returned [sampleNewEntry] /\
  lastEntryReply afterUploadEnv = Returned (Some sampleNewEntry) /\
  outcome (createFormattedMeasurements sampleGraph afterUploadEnv sampleGlobals)
  = Returned [] /\
  filter isUpload
    (emitted (uploadToNightScout sampleGraph afterUploadEnv sampleGlobals)) = [].
Proof.
  split; [reflexivity|]. split; [reflexivity|].
  apply (createFormattedMeasurements_nothing_new_after_upload
           sampleEnv afterUploadEnv sampleGlobals sampleGlobals sampleGraph
           [sampleNewEntry] sampleNewEntry); try reflexivity.
  - now left.
  - intros e [<- | []]. cbn. lia.
Defined.

Lemma login_request_error_example :
  loginReply loginDownEnv = RequestError "ETIMEDOUT" /\
  outcome (login loginDownEnv expiredGlobals) = Returned None /\
  remoteCalls (emitted (main loginDownEnv expiredGlobals))
  = [PostLogin libreLinkUpHttpHeaders] /\
  userId (final (main loginDownEnv expiredGlobals)) = "".
Proof.
  split; [reflexivity|].
  destruct (login_request_error loginDownEnv expiredGlobals "ETIMEDOUT" eq_refl)
    as [Hlogin Hcycle].
  destruct (Hcycle eq_refl) as (_ & Hfinal & Hcalls).
  split; [now rewrite Hlogin|]. split; [exact Hcalls|]. now rewrite Hfinal.
Defined.

Lemma main_requests_carry_session_example :
  exists h,
    In (GetConnections h) (emitted (main sampleEnv expiredGlobals)) /\
    Authorization h = Some "Bearer tok" /\
    account_id h = "user-1".
Proof.
  assert (Hasked : existsb isConnectionsRequest
                     (emitted (main sampleEnv expiredGlobals)) = true)
    by (vm_compute; reflexivity).
  apply existsb_exists in Hasked as (ev & Hin & Hev).
  destruct ev as [| |h| | |]; try discriminate Hev.
  exists h. split; [exact Hin|].
  destruct (main_requests_carry_session sampleEnv expiredGlobals h
              (or_introl Hin)) as [_ Hlogin].
  destruct (Hlogin sampleLogin eq_refl eq_refl) as [Haccount Hbearer].
  split; [apply Hbearer; discriminate | exact Haccount].
Defined.

Lemma getLibreLinkUpConnection_resolves_listed_patient_example :
  outcome (getLibreLinkUpConnection sampleEnv sampleGlobals) = Returned (Some "p1") /\
  exists h conns c,
    connectionsReply sampleEnv h = Response conns /\
    In c conns /\ patientId c = "p1".
Proof.
  split; [reflexivity|].
  destruct (getLibreLinkUpConnection_resolves_listed_patient
              sampleEnv sampleGlobals "p1" eq_refl)
    as (h & conns & c & _ & Hreply & Hin & Hid & _).
  exists h, conns, c. split; [exact Hreply|]. split; [exact Hin | exact Hid].
Defined.

Lemma hasValidAuthentication_until_expiry_millisecond_example :
  expires (authTicket sampleGlobals) = Some 2000 /\
  outcome (hasValidAuthentication sampleEnv sampleGlobals) = Returned true /\
  outcome (hasValidAuthentication afterUploadEnv sampleGlobals) = Returned true.
Proof.
  split; [reflexivity|]. split.
  - apply (hasValidAuthentication_until_expiry_millisecond
             sampleEnv sampleGlobals 2000 eq_refl). reflexivity.
  - apply (hasValidAuthentication_until_expiry_millisecond
             afterUploadEnv sampleGlobals 2000 eq_refl). reflexivity.
Defined.

Lemma undefined_expiry_forces_login_example :
  expires (authTicket noExpiryGlobals) = None /\
  outcome (hasValidAuthentication sampleEnv noExpiryGlobals) = Returned false /\
  exists later,
    remoteCalls (emitted (main sampleEnv noExpiryGlobals))
    = PostLogin libreLinkUpHttpHeaders :: later.
Proof.
  split; [reflexivity|].
  destruct (undefined_expiry_forces_login sampleEnv noExpiryGlobals eq_refl)
    as [Hcheck Hfirst].
  split; [now rewrite Hcheck | exact Hfirst].
Defined.

Lemma stealthCiphers_swaps_second_and_third_example :
  (3 <= List.length sampleCiphers)%nat /\
  stealthCiphers sampleCiphers
  = map Some ["TLS_AES_256_GCM_SHA384"; "TLS_AES_128_GCM_SHA256";
              "TLS_CHACHA20_POLY1305_SHA256"; "ECDHE-RSA-AES128-GCM-SHA256"] /\
  Permutation (map Some sampleCiphers) (stealthCiphers sampleCiphers).
Proof.
  assert (Hlen : (3 <= List.length sampleCiphers)%nat) by (cbn; lia).
  split; [exact Hlen|].
  destruct (stealthCiphers_swaps_second_and_third sampleCiphers) as [Hlong _].
  destruct (Hlong Hlen) as (_ & Hperm & _).
  split; [reflexivity | exact Hperm].
Defined.

Lemma valid_session_skips_login_example :
  outcome (hasValidAuthentication sampleEnv sampleGlobals) = Returned true /\
  forall h, ~ In (PostLogin h) (emitted (main sampleEnv sampleGlobals)).
Proof.
  split; [reflexivity|].
  destruct (valid_session_skips_login sampleEnv sampleGlobals eq_refl)
    as [Hnologin _].
  exact Hnologin.
Defined.

Lemma login_ticket_reused_by_next_cycle_example :
  outcome (hasValidAuthentication sampleEnv expiredGlobals) = Returned false /\
  outcome (login sampleEnv expiredGlobals) = Returned (Some sampleTicket) /\
  authTicket (final (main sampleEnv expiredGlobals)) = sampleTicket /\
  forall h,
    ~ In (PostLogin h)
         (emitted (main afterUploadEnv (final (main sampleEnv expiredGlobals)))).
Proof.
  split; [reflexivity|]. split; [reflexivity|].
  assert (Hnow : dateNow afterUploadEnv < 1000 * 2000) by (cbn; lia).
  exact (login_ticket_reused_by_next_cycle sampleEnv afterUploadEnv expiredGlobals
           sampleTicket 2000 eq_refl eq_refl (sampleEnv_requests_succeed _)
           eq_refl Hnow).
Defined.

